(** * dhan-api-testing: the Dhan live-feed client

    The module that the routes import as [@/lib/dhanSocket].

    A shallow embedding of the server-side WebSocket singleton: the
    instrument lookup tables, the trading-window check, the batched
    subscription, the 16-byte binary tick decoder, the tick store with
    its SSE fan-out, and the connect / reconnect life cycle with its
    back-off.  The definitions follow the latest revision of the module;
    the older revision is kept in [Rev1] where the two differ.

    JavaScript numbers that carry fractions (the reconnect delay, the
    price) are binary64 floats and are modelled by Rocq's primitive
    floats; counters, lengths, identifiers and timestamps are integers
    below 2^53 and are modelled by [Z] and [nat]. *)

From Stdlib Require Import ZArith List String Ascii Bool Lia Floats QArith.
From Stdlib Require Import DecimalString DecimalPos Qminmax.
From Stdlib.Strings Require Byte.
Import ListNotations.

Local Open Scope string_scope.
Local Open Scope list_scope.
Local Open Scope Z_scope.

(* ================================================================== *)
(** * JavaScript values used by the module                             *)
(* ================================================================== *)

Module Js.

(** [String(n)] for a non-negative integer below 2^53: its decimal
    digits, without sign or leading zeros. *)
Definition String_of_num (n : Z) : string :=
  NilEmpty.string_of_uint (N.to_uint (Z.to_N n)).

(** Truthiness of an optional string: [undefined] and the empty string are falsy. *)
Definition truthy_str (v : option string) : bool :=
  match v with
  | None => false
  | Some EmptyString => false
  | Some (String _ _) => true
  end.

(** Truthiness of an optional number whose value is an integer:
    [undefined] and [0] are falsy. *)
Definition truthy_num (v : option Z) : bool :=
  match v with
  | None => false
  | Some n => negb (n =? 0)
  end.

(** [Math.min] on two numbers. *)
Definition Math_min (a b : float) : float :=
  if (PrimFloat.is_nan a || PrimFloat.is_nan b)%bool then nan
  else if (a <? b)%float then a
  else if (b <? a)%float then b
  else if (PrimFloat.is_zero a && PrimFloat.get_sign a)%bool then a
  else b.

(** [Date.prototype.getUTCHours] and [getUTCMinutes] of the instant
    [t], given in milliseconds since the epoch. *)
Definition getUTCHours (t : Z) : Z := (t / 3600000) mod 24.
Definition getUTCMinutes (t : Z) : Z := (t / 60000) mod 60.

(** The binary64 value of a binary32 bit pattern (what a
    [Float32Array] element reads back as). *)
Definition float_of_binary32 (w : Z) : float :=
  let s := Z.testbit w 31 in
  let e := Z.land (Z.shiftr w 23) 255 in
  let m := Z.land w (2 ^ 23 - 1) in
  let mag :=
    if e =? 255 then (if m =? 0 then infinity else nan)
    else if e =? 0 then Z.ldexp (PrimFloat.of_uint63 (Uint63.of_Z m)) (-149)
    else Z.ldexp (PrimFloat.of_uint63 (Uint63.of_Z (2 ^ 23 + m))) (e - 150) in
  if s then (- mag)%float else mag.

(** The exact rational value of a finite float. *)
Definition to_Q (f : float) : option Q :=
  match Prim2SF f with
  | S754_zero _ => Some 0%Q
  | S754_finite s m e =>
      let mag := (inject_Z (Z.pos m) * Qpower 2 e)%Q in
      Some (if s then Qopp mag else mag)
  | _ => None
  end.

End Js.

(* ================================================================== *)
(** * [Map]: insertion-ordered association                             *)
(* ================================================================== *)

(** A JavaScript [Map] iterates in insertion order, and [set] on a key
    that is present keeps the key's position.  The fan-out and the
    snapshot both iterate, so the order is part of the model. *)
Module JsMap.
Section Defs.
Context {K V : Type}.
Variable eqb : K -> K -> bool.

Definition t := list (K * V).

Definition empty : t := [].

Fixpoint get (m : t) (k : K) : option V :=
  match m with
  | [] => None
  | (k', v) :: r => if eqb k k' then Some v else get r k
  end.

Fixpoint set (m : t) (k : K) (v : V) : t :=
  match m with
  | [] => [(k, v)]
  | (k', v') :: r =>
      if eqb k k' then (k', v) :: r else (k', v') :: set r k v
  end.

Fixpoint delete (m : t) (k : K) : t :=
  match m with
  | [] => []
  | (k', v') :: r => if eqb k k' then r else (k', v') :: delete r k
  end.

Definition keys (m : t) : list K := map fst m.
Definition values (m : t) : list V := map snd m.
Definition size (m : t) : nat := List.length m.
End Defs.
End JsMap.

(** Key comparison ([SameValueZero]) at the key types in use. *)
Definition key_eqb (a b : option string) : bool :=
  match a, b with
  | None, None => true
  | Some x, Some y => String.eqb x y
  | _, _ => false
  end.

(* ================================================================== *)
(** * Instruments and the lookup tables                                *)
(* ================================================================== *)

(** An entry of [STOCK_INSTRUMENTS].  [securityId] and [exchange] are
    what [validateInstruments] tests for presence, so both may be
    missing. *)
Record DhanInstrument := {
  symbol : string;
  exchange : option string;
  securityId : option string
}.

Definition SymbolTable := @JsMap.t (option string) string.
Definition ExchangeTable := @JsMap.t (option string) (option string).

(** The module-level loop
    [for (const inst of STOCK_INSTRUMENTS) { ...set(...) }]. *)
Definition build_SECURITY_ID_TO_SYMBOL (l : list DhanInstrument) : SymbolTable :=
  fold_left (fun m inst => JsMap.set key_eqb m (securityId inst) (symbol inst))
            l JsMap.empty.

Definition build_SECURITY_ID_TO_EXCHANGE (l : list DhanInstrument) : ExchangeTable :=
  fold_left (fun m inst => JsMap.set key_eqb m (securityId inst) (exchange inst))
            l JsMap.empty.

(** [resolveSymbol(securityId?: string)]. *)
Definition resolveSymbol (tbl : SymbolTable) (sid : option string) : string :=
  if negb (Js.truthy_str sid) then "UNKNOWN"
  else
    match sid with
    | None => "UNKNOWN"
    | Some s =>
        match JsMap.get key_eqb tbl (Some s) with
        | Some sym => sym
        | None => ("securityId:" ++ s)%string
        end
    end.

(** The filter predicate of [validateInstruments]. *)
Definition invalid_instrument (inst : DhanInstrument) : bool :=
  negb (Js.truthy_str (securityId inst)) || negb (Js.truthy_str (exchange inst)).

(** [validateInstruments()]: [None] when it returns, [Some msg] when it
    throws [Error(msg)]. *)
Definition validateInstruments (l : list DhanInstrument) : option string :=
  let invalid := filter invalid_instrument l in
  if (0 <? List.length invalid)%nat then Some "Invalid Dhan instrument mapping"
  else None.

(* ================================================================== *)
(** * The trading window                                               *)
(* ================================================================== *)

Definition marketOpen : Z := 9 * 60 + 15.
Definition marketClose : Z := 15 * 60 + 30.

(** [isMarketOpen()], with the result of [new Date()] as argument. *)
Definition isMarketOpen (now : Z) : bool :=
  let istMinutes := Js.getUTCHours now * 60 + Js.getUTCMinutes now + 330 in
  (marketOpen <=? istMinutes) && (istMinutes <=? marketClose).

Module Rev1.
(** The older revision adds five hours to the UTC hour and nothing to
    the minutes. *)
Definition isMarketOpen (now : Z) : bool :=
  let hours := Js.getUTCHours now + 5 in
  let minutes := Js.getUTCMinutes now in
  let totalMinutes := hours * 60 + minutes in
  (marketOpen <=? totalMinutes) && (totalMinutes <=? marketClose).
End Rev1.

(** The wall-clock minute of the day at the fixed offset UTC+5:30, as
    the specification words it. *)
Definition ist_minute_of_day (now : Z) : Z :=
  ((now + 330 * 60000) / 60000) mod 1440.

(* ================================================================== *)
(** * Subscription requests                                            *)
(* ================================================================== *)

Record InstrumentRef := {
  ExchangeSegment : option string;
  SecurityId : option string
}.

(** What is handed to [JSON.stringify] and then to [ws.send]. *)
Inductive Payload :=
| SubscribeRequest (RequestCode : Z) (InstrumentCount : Z)
                   (InstrumentList : list InstrumentRef)
| ModeRequest (RequestCode : Z) (Mode : Z).

(** The [InstrumentList] of a request ([[]] for a mode request). *)
Definition payload_instruments (p : Payload) : list InstrumentRef :=
  match p with
  | SubscribeRequest _ _ l => l
  | ModeRequest _ _ => []
  end.

Definition BATCH_SIZE : nat := 100.

(** [Array.prototype.slice(from, to)] for [0 <= from <= to]. *)
Definition slice {A} (l : list A) (from to : nat) : list A :=
  firstn (to - from) (skipn from l).

Definition to_ref (inst : DhanInstrument) : InstrumentRef :=
  {| ExchangeSegment := exchange inst; SecurityId := securityId inst |}.

Definition subscribe_payload (batch : list DhanInstrument) : Payload :=
  SubscribeRequest 15 (Z.of_nat (List.length batch)) (map to_ref batch).

Definition mode_payload : Payload := ModeRequest 16 1.

(** The loop [for (let i = 0; i < totalInstruments; i += BATCH_SIZE)],
    returning what it sends, in order.  [fuel] bounds the number of
    iterations; [batch_loop_fuel] shows that the list's length is
    enough. *)
Fixpoint batch_loop (fuel : nat) (l : list DhanInstrument) (i : nat)
  : list Payload :=
  match fuel with
  | O => []
  | S fuel' =>
      if (i <? List.length l)%nat then
        let batch := slice l i (i + BATCH_SIZE) in
        subscribe_payload batch :: batch_loop fuel' l (i + BATCH_SIZE)
      else []
  end.

Definition subscription_messages (l : list DhanInstrument) : list Payload :=
  batch_loop (List.length l) l 0 ++ [mode_payload].

Module Rev1Subscribe.
(** The older revision sends the whole list in one request, with
    request code 21. *)
Definition subscription_messages (l : list DhanInstrument) : list Payload :=
  [SubscribeRequest 21 (Z.of_nat (List.length l)) (map to_ref l);
   ModeRequest 16 1].
End Rev1Subscribe.

(* ================================================================== *)
(** * The binary tick frame                                            *)
(* ================================================================== *)

Definition Buffer := list Byte.byte.

Definition byte_val (b : Byte.byte) : Z := Z.of_N (Byte.to_N b).

(** Reads return [None] where Node throws [ERR_OUT_OF_RANGE]. *)
Definition readUInt8 (buf : Buffer) (offset : nat) : option Z :=
  option_map byte_val (nth_error buf offset).

Definition readUInt32LE (buf : Buffer) (offset : nat) : option Z :=
  match nth_error buf offset, nth_error buf (offset + 1),
        nth_error buf (offset + 2), nth_error buf (offset + 3) with
  | Some b0, Some b1, Some b2, Some b3 =>
      Some (byte_val b0 + byte_val b1 * 2 ^ 8 + byte_val b2 * 2 ^ 16
            + byte_val b3 * 2 ^ 24)
  | _, _, _, _ => None
  end.

Definition readFloatLE (buf : Buffer) (offset : nat) : option float :=
  option_map Js.float_of_binary32 (readUInt32LE buf offset).

Module Parsed.
Record t := {
  messageType : Z;
  securityId : Z;
  price : float;
  timestamp : Z
}.
End Parsed.

(** [parseBinaryTick(buffer)]; [None] is JavaScript's [null]. *)
Definition parseBinaryTick (buffer : Buffer) : option Parsed.t :=
  if (List.length buffer <? 16)%nat then None
  else
    match readUInt8 buffer 0, readUInt32LE buffer 4,
          readFloatLE buffer 8, readUInt32LE buffer 12 with
    | Some messageType, Some securityId, Some price, Some timestamp =>
        Some {| Parsed.messageType := messageType;
                Parsed.securityId := securityId;
                Parsed.price := price;
                Parsed.timestamp := timestamp |}
    | _, _, _, _ => None   (* the [catch] branch *)
    end.

(** Little-endian bytes of a 32-bit word, for writing frames down. *)
Definition byte_of (n : Z) : Byte.byte :=
  match Byte.of_N (Z.to_N (n mod 256)) with
  | Some b => b
  | None => Byte.x00
  end.

Definition le32 (n : Z) : list Byte.byte :=
  [byte_of n; byte_of (n / 2 ^ 8); byte_of (n / 2 ^ 16); byte_of (n / 2 ^ 24)].

(* ================================================================== *)
(** * Tick store and SSE clients                                       *)
(* ================================================================== *)

Module Tick.
Record TickData := {
  securityId : Z;
  symbol : string;
  price : float;
  timestamp : Z;
  messageType : Z;
  messageTypeLabel : string
}.
End Tick.
Definition TickData : Type := Tick.TickData.

Definition TickStore := @JsMap.t Z TickData.

(** The two events of the outward stream, before text encoding. *)
Inductive SSEMessage :=
| InitialMessage (data : list TickData)
| TickMessage (data : TickData).

(** A [ReadableStreamDefaultController]: [enqueue] throws once the
    stream is closed or errored. *)
Record Controller := {
  closed : bool;
  queue : list SSEMessage
}.

(** Controllers are objects owned by the route handlers; the module
    holds references to them.  A reference is an index into the list
    of streams. *)
Definition Streams := list Controller.

Fixpoint replace_nth {A} (l : list A) (n : nat) (x : A) : list A :=
  match l, n with
  | [], _ => []
  | _ :: r, O => x :: r
  | y :: r, S n' => y :: replace_nth r n' x
  end.

(** [controller.enqueue(m)]; [None] when it throws. *)
Definition enqueue (h : Streams) (c : nat) (m : SSEMessage) : option Streams :=
  match nth_error h c with
  | Some ctl =>
      if closed ctl then None
      else Some (replace_nth h c {| closed := false; queue := queue ctl ++ [m] |})
  | None => None
  end.

(** Every stream of [h] is still there in [h'], with what it had
    received at the front of what it has received now. *)
Definition queues_extended (h h' : Streams) : Prop :=
  forall c ctl,
    nth_error h c = Some ctl ->
    exists ctl' later,
      nth_error h' c = Some ctl' /\ queue ctl' = queue ctl ++ later.

Record SSEClient := {
  controller : nat;
  id : string
}.

Definition ClientMap := @JsMap.t string SSEClient.

(** The transport's [readyState]. *)
Inductive ReadyState := CONNECTING | OPEN | CLOSING | CLOSED.

(** [WebSocket.Data] as [handleMessage] tells it apart. *)
Inductive WsData :=
| BinaryData (buf : Buffer)
| TextData (text : string).

(* ================================================================== *)
(** * Module state                                                     *)
(* ================================================================== *)

(** The module's variables, what it imports, and the part of the host
    it acts on: the streams it writes to, the pending timeouts, and a
    record of the calls to [setTimeout], [ws.send] and
    [new WebSocket]. *)
Record State := mkState {
  (* imports and environment *)
  STOCK_INSTRUMENTS : list DhanInstrument;
  clientId : option string;
  accessToken : option string;
  (* module variables *)
  ws : option ReadyState;
  reconnectTimer : option nat;
  isConnecting : bool;
  reconnectDelay : float;
  tickDataStore : TickStore;
  sseClients : ClientMap;
  SECURITY_ID_TO_SYMBOL : SymbolTable;
  (* host *)
  streams : Streams;
  timers : list nat;        (* pending timeouts *)
  scheduled : list float;   (* delay of every [setTimeout], oldest first;
                               a timeout's handle is its index here *)
  sent : list Payload;      (* every [ws.send], oldest first *)
  connects : nat            (* number of [new WebSocket(...)] so far *)
}.

Definition with_ws (v : option ReadyState) (s : State) : State :=
  mkState (STOCK_INSTRUMENTS s) (clientId s) (accessToken s)
          v (reconnectTimer s) (isConnecting s) (reconnectDelay s)
          (tickDataStore s) (sseClients s) (SECURITY_ID_TO_SYMBOL s)
          (streams s) (timers s) (scheduled s) (sent s) (connects s).

Definition with_reconnectTimer (v : option nat) (s : State) : State :=
  mkState (STOCK_INSTRUMENTS s) (clientId s) (accessToken s)
          (ws s) v (isConnecting s) (reconnectDelay s)
          (tickDataStore s) (sseClients s) (SECURITY_ID_TO_SYMBOL s)
          (streams s) (timers s) (scheduled s) (sent s) (connects s).

Definition with_isConnecting (v : bool) (s : State) : State :=
  mkState (STOCK_INSTRUMENTS s) (clientId s) (accessToken s)
          (ws s) (reconnectTimer s) v (reconnectDelay s)
          (tickDataStore s) (sseClients s) (SECURITY_ID_TO_SYMBOL s)
          (streams s) (timers s) (scheduled s) (sent s) (connects s).

Definition with_reconnectDelay (v : float) (s : State) : State :=
  mkState (STOCK_INSTRUMENTS s) (clientId s) (accessToken s)
          (ws s) (reconnectTimer s) (isConnecting s) v
          (tickDataStore s) (sseClients s) (SECURITY_ID_TO_SYMBOL s)
          (streams s) (timers s) (scheduled s) (sent s) (connects s).

Definition with_tickDataStore (v : TickStore) (s : State) : State :=
  mkState (STOCK_INSTRUMENTS s) (clientId s) (accessToken s)
          (ws s) (reconnectTimer s) (isConnecting s) (reconnectDelay s)
          v (sseClients s) (SECURITY_ID_TO_SYMBOL s)
          (streams s) (timers s) (scheduled s) (sent s) (connects s).

Definition with_sseClients (v : ClientMap) (s : State) : State :=
  mkState (STOCK_INSTRUMENTS s) (clientId s) (accessToken s)
          (ws s) (reconnectTimer s) (isConnecting s) (reconnectDelay s)
          (tickDataStore s) v (SECURITY_ID_TO_SYMBOL s)
          (streams s) (timers s) (scheduled s) (sent s) (connects s).

Definition with_streams (v : Streams) (s : State) : State :=
  mkState (STOCK_INSTRUMENTS s) (clientId s) (accessToken s)
          (ws s) (reconnectTimer s) (isConnecting s) (reconnectDelay s)
          (tickDataStore s) (sseClients s) (SECURITY_ID_TO_SYMBOL s)
          v (timers s) (scheduled s) (sent s) (connects s).

Definition with_timers (v : list nat) (s : State) : State :=
  mkState (STOCK_INSTRUMENTS s) (clientId s) (accessToken s)
          (ws s) (reconnectTimer s) (isConnecting s) (reconnectDelay s)
          (tickDataStore s) (sseClients s) (SECURITY_ID_TO_SYMBOL s)
          (streams s) v (scheduled s) (sent s) (connects s).

Definition with_scheduled (v : list float) (s : State) : State :=
  mkState (STOCK_INSTRUMENTS s) (clientId s) (accessToken s)
          (ws s) (reconnectTimer s) (isConnecting s) (reconnectDelay s)
          (tickDataStore s) (sseClients s) (SECURITY_ID_TO_SYMBOL s)
          (streams s) (timers s) v (sent s) (connects s).

Definition with_sent (v : list Payload) (s : State) : State :=
  mkState (STOCK_INSTRUMENTS s) (clientId s) (accessToken s)
          (ws s) (reconnectTimer s) (isConnecting s) (reconnectDelay s)
          (tickDataStore s) (sseClients s) (SECURITY_ID_TO_SYMBOL s)
          (streams s) (timers s) (scheduled s) v (connects s).

Definition with_connects (v : nat) (s : State) : State :=
  mkState (STOCK_INSTRUMENTS s) (clientId s) (accessToken s)
          (ws s) (reconnectTimer s) (isConnecting s) (reconnectDelay s)
          (tickDataStore s) (sseClients s) (SECURITY_ID_TO_SYMBOL s)
          (streams s) (timers s) (scheduled s) (sent s) v.

(** A call either returns or throws [Error(msg)]; what it did to the
    state before throwing stays done. *)
Definition Thrown := option string.

(** The state once the module's top-level declarations have run. *)
Definition module_state (instruments : list DhanInstrument)
           (cid tok : option string) (h : Streams) : State :=
  {| STOCK_INSTRUMENTS := instruments;
     clientId := cid;
     accessToken := tok;
     ws := None;
     reconnectTimer := None;
     isConnecting := false;
     reconnectDelay := 5000%float;
     tickDataStore := JsMap.empty;
     sseClients := JsMap.empty;
     SECURITY_ID_TO_SYMBOL := build_SECURITY_ID_TO_SYMBOL instruments;
     streams := h;
     timers := [];
     scheduled := [];
     sent := [];
     connects := 0 |}.

(* ================================================================== *)
(** * Store access and fan-out                                         *)
(* ================================================================== *)

(** [getTickData] returns a record (or [undefined]) or the whole map. *)
Inductive TickQuery :=
| OneTick (r : option TickData)
| WholeStore (m : TickStore).

Definition getTickData (s : State) (securityId : option Z) : TickQuery :=
  if Js.truthy_num securityId then
    match securityId with
    | Some k => OneTick (JsMap.get Z.eqb (tickDataStore s) k)
    | None => WholeStore (tickDataStore s)
    end
  else WholeStore (tickDataStore s).

(** [subscribeToTicks(controller)].  [id] stands for the value of
    [Math.random().toString(36).substring(7)].  The result of the call
    is the closure [() => sseClients.delete(id)], which is
    [unsubscribe id] below. *)
Definition subscribeToTicks (s : State) (c : nat) (id : string) : State :=
  let s1 := with_sseClients
              (JsMap.set String.eqb (sseClients s) id
                         {| controller := c; id := id |}) s in
  let initialData := JsMap.values (tickDataStore s1) in
  if (0 <? List.length initialData)%nat then
    match enqueue (streams s1) c (InitialMessage initialData) with
    | Some h => with_streams h s1
    | None => s1   (* caught and logged *)
    end
  else s1.

Definition unsubscribe (id : string) (s : State) : State :=
  with_sseClients (JsMap.delete String.eqb (sseClients s) id) s.

(** One turn of the [forEach] in [broadcastTickData]. *)
Definition deliver (m : SSEMessage) (acc : Streams * list string)
           (entry : string * SSEClient) : Streams * list string :=
  let '(h, toRemove) := acc in
  match enqueue h (controller (snd entry)) m with
  | Some h' => (h', toRemove)
  | None => (h, toRemove ++ [fst entry])
  end.

Definition broadcastTickData (s : State) (tickData : TickData) : State :=
  let encoded := TickMessage tickData in
  let '(h, toRemove) :=
    fold_left (deliver encoded) (sseClients s) (streams s, []) in
  let clients :=
    fold_left (fun m id => JsMap.delete String.eqb m id) toRemove (sseClients s) in
  with_sseClients clients (with_streams h s).

Definition messageTypeLabel_of (messageType : Z) : string :=
  if messageType =? 2 then "LTP"
  else if messageType =? 6 then "QUOTE"
  else ("TYPE_" ++ Js.String_of_num messageType)%string.

(** [handleMessage(data)]. *)
Definition handleMessage (s : State) (data : WsData) : State :=
  match data with
  | TextData _ => s
  | BinaryData buf =>
      match parseBinaryTick buf with
      | None => s
      | Some tickData =>
          let messageType := Parsed.messageType tickData in
          let securityId := Parsed.securityId tickData in
          let symbol :=
            resolveSymbol (SECURITY_ID_TO_SYMBOL s)
                          (Some (Js.String_of_num securityId)) in
          let tickDataWithSymbol :=
            {| Tick.securityId := securityId;
               Tick.symbol := symbol;
               Tick.price := Parsed.price tickData;
               Tick.timestamp := Parsed.timestamp tickData;
               Tick.messageType := messageType;
               Tick.messageTypeLabel := messageTypeLabel_of messageType |} in
          broadcastTickData
            (with_tickDataStore
               (JsMap.set Z.eqb (tickDataStore s) securityId tickDataWithSymbol) s)
            tickDataWithSymbol
      end
  end.

(* ================================================================== *)
(** * Connection life cycle                                            *)
(* ================================================================== *)

(** [ws] tested as a condition: [null] is falsy, a transport is not. *)
Definition has_ws (s : State) : bool :=
  match ws s with
  | Some _ => true
  | None => false
  end.

(** [validateEnv()]. *)
Definition validateEnv (s : State) : Thrown :=
  if negb (Js.truthy_str (clientId s)) || negb (Js.truthy_str (accessToken s))
  then Some "DHAN_CLIENT_ID and DHAN_ACCESS_TOKEN must be set"
  else None.

(** [subscribeToStockCodes()], with the clock reading as argument. *)
Definition subscribeToStockCodes (s : State) (now : Z) : State * Thrown :=
  if negb (isMarketOpen now) then (s, None)
  else
    match ws s with
    | Some OPEN =>
        match validateInstruments (STOCK_INSTRUMENTS s) with
        | Some err => (s, Some err)
        | None =>
            (with_sent (sent s ++ subscription_messages (STOCK_INSTRUMENTS s)) s,
             None)
        end
    | _ => (s, None)
    end.

(** [connectWebSocket()]: the guard, the credentials check, and the
    creation of the transport.  The four handlers it registers are
    [on_open], [handleMessage], [on_error] and [on_close]. *)
Definition connectWebSocket (s : State) : State * Thrown :=
  if isConnecting s || has_ws s then (s, None)
  else
    match validateEnv s with
    | Some err => (s, Some err)
    | None =>
        (with_connects (S (connects s))
           (with_ws (Some CONNECTING) (with_isConnecting true s)),
         None)
    end.

Definition on_open (s : State) (now : Z) : State * Thrown :=
  subscribeToStockCodes
    (with_reconnectDelay 5000%float (with_isConnecting false s)) now.

Definition on_error (s : State) : State := s.

(** [setTimeout(cb, delay)]: the new handle and the state with the
    timeout pending. *)
Definition setTimeout (s : State) (delay : float) : nat * State :=
  let handle := List.length (scheduled s) in
  (handle, with_scheduled (scheduled s ++ [delay])
                          (with_timers (timers s ++ [handle]) s)).

Definition clearTimeout (s : State) (handle : nat) : State :=
  with_timers (filter (fun h => negb (Nat.eqb h handle)) (timers s)) s.

Definition on_close (s : State) : State :=
  let s1 := with_isConnecting false (with_ws None s) in
  let '(handle, s2) := setTimeout s1 (reconnectDelay s1) in
  with_reconnectTimer (Some handle) s2.

(** The callback given to [setTimeout] by the close handler. *)
Definition reconnect_callback (s : State) : State * Thrown :=
  connectWebSocket
    (with_reconnectDelay
       (Js.Math_min (reconnectDelay s * 1.5)%float 60000%float) s).

(** [initDhanSocket()]. *)
Definition initDhanSocket (s : State) : State * Thrown :=
  if negb (has_ws s) && negb (isConnecting s)
  then connectWebSocket s
  else (s, None).

Inductive SocketStatus := connecting | open | closed_status | not_initialized.

(** [getSocketStatus()]. *)
Definition getSocketStatus (s : State) : SocketStatus :=
  match ws s with
  | None => if isConnecting s then connecting else not_initialized
  | Some OPEN => open
  | Some CONNECTING => connecting
  | Some _ => closed_status
  end.

(** [closeSocket()]. *)
Definition closeSocket (s : State) : State :=
  let s1 := match reconnectTimer s with
            | Some handle => clearTimeout s handle
            | None => s
            end in
  let s2 := with_isConnecting false (with_reconnectTimer None s1) in
  match ws s2 with
  | Some _ => with_ws None s2
  | None => s2
  end.

(** The module's last statement: outside a build, start the socket. *)
Definition load_module (instruments : list DhanInstrument)
           (cid tok : option string) (h : Streams) (isBuildTime : bool)
  : State * Thrown :=
  let s := module_state instruments cid tok h in
  if negb isBuildTime then initDhanSocket s else (s, None).

(** ** Events

    What can happen to the module: a call of an exported function, an
    event of the transport the module holds, or a pending timeout
    firing.  [step] is [None] where the event cannot happen (no such
    transport, no such timeout). *)
Inductive Event :=
| CallInit
| CallClose
| CallSubscribeToTicks (c : nat) (id : string)
| CallUnsubscribe (id : string)
| WsOpen (now : Z)
| WsMessage (data : WsData)
| WsError
| WsClosing
| WsClose
| TimerFires (handle : nat).

Definition step (s : State) (e : Event) : option (State * Thrown) :=
  match e with
  | CallInit => Some (initDhanSocket s)
  | CallClose => Some (closeSocket s, None)
  | CallSubscribeToTicks c id => Some (subscribeToTicks s c id, None)
  | CallUnsubscribe id => Some (unsubscribe id s, None)
  | WsOpen now =>
      match ws s with
      | Some CONNECTING => Some (on_open (with_ws (Some OPEN) s) now)
      | _ => None
      end
  | WsMessage data =>
      match ws s with
      | Some OPEN | Some CLOSING => Some (handleMessage s data, None)
      | _ => None
      end
  | WsError =>
      match ws s with
      | Some _ => Some (on_error s, None)
      | None => None
      end
  | WsClosing =>
      match ws s with
      | Some CONNECTING | Some OPEN => Some (with_ws (Some CLOSING) s, None)
      | _ => None
      end
  | WsClose =>
      match ws s with
      | Some _ => Some (on_close (with_ws (Some CLOSED) s), None)
      | None => None
      end
  | TimerFires handle =>
      if existsb (Nat.eqb handle) (timers s)
      then Some (reconnect_callback (clearTimeout s handle))
      else None
  end.

(** A run: the final state and the errors thrown on the way. *)
Fixpoint run (s : State) (tr : list Event) : option (State * list string) :=
  match tr with
  | [] => Some (s, [])
  | e :: tr' =>
      match step s e with
      | None => None
      | Some (s1, thrown) =>
          match run s1 tr' with
          | None => None
          | Some (s2, errs) =>
              Some (s2, match thrown with
                        | Some err => err :: errs
                        | None => errs
                        end)
          end
      end
  end.

(** ** The back-off, in the specification's words

    The first delay is 5000 ms; each later one is the one before times
    1.5, capped at 60000 ms. *)
Fixpoint spec_delay (k : nat) : Q :=
  match k with
  | O => 5000
  | S k' => Qmin (spec_delay k' * (3 # 2)) 60000
  end.

(** The same in binary64, as the code computes it. *)
Fixpoint backoff (k : nat) : float :=
  match k with
  | O => 5000
  | S k' => Js.Math_min (backoff k' * 1.5)%float 60000
  end.

(** The delays a run is expected to schedule when the reconnect
    counter stands at [k]: a close schedules the [k]-th delay and the
    next one will be the [k+1]-st; an open puts the counter back to
    zero. *)
Fixpoint expected_delays (k : nat) (tr : list Event) : list float :=
  match tr with
  | [] => []
  | WsClose :: tr' => backoff k :: expected_delays (S k) tr'
  | WsOpen _ :: tr' => expected_delays 0 tr'
  | _ :: tr' => expected_delays k tr'
  end.

(** Where the reconnect loop can be when its counter stands at [k]:
    a transport at hand and no timeout pending; or no transport, the
    timeout of the last close pending and the delay not yet raised; or
    stopped, because the callback found the credentials missing. *)
Definition loop_inv (k : nat) (s : State) : Prop :=
  (has_ws s = true /\ timers s = [] /\ reconnectDelay s = backoff k)
  \/ (ws s = None /\ isConnecting s = false
      /\ (exists handle, timers s = [handle])
      /\ exists j, k = S j /\ reconnectDelay s = backoff j)
  \/ (ws s = None /\ timers s = []).

(** Every event but the two exported calls that start and stop the
    connection: the transport's events, the module's own timeouts, and
    the calls of the SSE route. *)
Definition not_lifecycle_call (e : Event) : bool :=
  match e with
  | CallInit | CallClose => false
  | _ => true
  end.

(* ================================================================== *)
(** * Notions used to state further properties                         *)
(* ================================================================== *)

(** Whether [enqueue] on the stream [c] returns rather than throws. *)
Definition accepts (h : Streams) (c : nat) : bool :=
  match nth_error h c with
  | Some ctl => negb (closed ctl)
  | None => false
  end.

(** How many registered clients write to the stream [c]. *)
Definition clients_of (m : ClientMap) (c : nat) : nat :=
  List.length (filter (fun e => Nat.eqb (controller (snd e)) c) m).

(** The record [handleMessage] builds from a decoded frame. *)
Definition tick_record (tbl : SymbolTable) (t : Parsed.t) : TickData :=
  {| Tick.securityId := Parsed.securityId t;
     Tick.symbol := resolveSymbol tbl (Some (Js.String_of_num (Parsed.securityId t)));
     Tick.price := Parsed.price t;
     Tick.timestamp := Parsed.timestamp t;
     Tick.messageType := Parsed.messageType t;
     Tick.messageTypeLabel := messageTypeLabel_of (Parsed.messageType t) |}.

(** A frame as the feed lays it out: the response code, three bytes
    the decoder skips, then security id, price pattern and time as
    little-endian 32-bit words, and whatever follows. *)
Definition frame (code b1 b2 b3 : Byte.byte) (sid w ts : Z)
           (rest : list Byte.byte) : Buffer :=
  [code; b1; b2; b3] ++ le32 sid ++ le32 w ++ le32 ts ++ rest.

(** What holds of the tick store at any time: one entry per security
    id, each record built by [handleMessage] from a frame carrying
    the id it is stored under. *)
Definition store_ok (tbl : SymbolTable) (m : TickStore) : Prop :=
  NoDup (JsMap.keys m)
  /\ forall k r,
      In (k, r) m ->
      Tick.securityId r = k
      /\ 0 <= k < 2 ^ 32
      /\ 0 <= Tick.timestamp r < 2 ^ 32
      /\ 0 <= Tick.messageType r < 256
      /\ Tick.symbol r = resolveSymbol tbl (Some (Js.String_of_num k))
      /\ Tick.messageTypeLabel r = messageTypeLabel_of (Tick.messageType r).

(** The values the reconnect delay can take. *)
Definition delay_values : list float :=
  [5000; 7500; 11250; 16875; 25312.5; 37968.75; 56953.125; 60000]%float.

(** At most one timeout is pending, and it is the one [reconnectTimer]
    refers to. *)
Definition timer_tracked (s : State) : Prop :=
  timers s = [] \/ exists h, timers s = [h] /\ reconnectTimer s = Some h.

(** The shape of the reconnect loop, whatever the delay: a transport
    and no timeout pending; or no transport and the one pending timeout
    that [reconnectTimer] refers to; or neither. *)
Definition loop_shape (s : State) : Prop :=
  (has_ws s = true /\ timers s = [])
  \/ (ws s = None /\ isConnecting s = false
      /\ exists h, timers s = [h] /\ reconnectTimer s = Some h)
  \/ (ws s = None /\ timers s = []).

(** A delay between the floor and the cap. *)
Definition delay_in_range (d : float) : Prop :=
  (5000 <=? d)%float = true /\ (d <=? 60000)%float = true.

(** Every event but a call of [initDhanSocket]. *)
Definition not_init_call (e : Event) : bool :=
  match e with
  | CallInit => false
  | _ => true
  end.

(* ================================================================== *)
(** * Concrete configurations used in examples                         *)
(* ================================================================== *)

Definition open_stream : Controller := {| closed := false; queue := [] |}.

Definition reliance : DhanInstrument :=
  {| symbol := "RELIANCE"; exchange := Some "NSE_EQ"; securityId := Some "2885" |}.

Definition tcs : DhanInstrument :=
  {| symbol := "TCS"; exchange := Some "NSE_EQ"; securityId := Some "11536" |}.

(** An entry whose exchange segment is missing. *)
Definition no_segment : DhanInstrument :=
  {| symbol := "INFY"; exchange := None; securityId := Some "1594" |}.

(** The module, loaded with credentials and one stream at hand. *)
Definition loaded (instruments : list DhanInstrument) : State :=
  fst (load_module instruments (Some "client") (Some "token") [open_stream] false).

(** 220 well-formed instruments with security ids "1" to "220". *)
Definition instruments220 : list DhanInstrument :=
  map (fun n => {| symbol := ("SYM" ++ Js.String_of_num (Z.of_nat n))%string;
                   exchange := Some "NSE_EQ";
                   securityId := Some (Js.String_of_num (Z.of_nat n)) |})
      (seq 1 220).

(** The module with those instruments, its transport open. *)
Definition open220 : State := with_ws (Some OPEN) (loaded instruments220).

(** Three failed connection attempts, then a successful one whose
    transport closes in turn. *)
Definition reconnect_trace : list Event :=
  [WsClose; TimerFires 0; WsClose; TimerFires 1; WsClose; TimerFires 2;
   WsOpen 1704080700000; WsClose].

(** 2024-01-01, 09:15:00 IST (03:45:00 UTC), in epoch milliseconds. *)
Definition t_0915 : Z := 1704080700000.
Definition t_0914 : Z := t_0915 - 60000.
Definition t_1530 : Z := t_0915 + 375 * 60000.
Definition t_1531 : Z := t_1530 + 60000.

(** The frame of the specification's decoding example, with the three
    bytes the decoder skips left open. *)
Definition example_frame (b1 b2 b3 : Byte.byte) : Buffer :=
  [Byte.x02; b1; b2; b3;
   Byte.x45; Byte.x0b; Byte.x00; Byte.x00;
   Byte.x00; Byte.x88; Byte.x19; Byte.x45;
   Byte.x00; Byte.xf1; Byte.x53; Byte.x65].

Definition example_tick : TickData :=
  {| Tick.securityId := 2885;
     Tick.symbol := "RELIANCE";
     Tick.price := 2456.5%float;
     Tick.timestamp := 1700000000;
     Tick.messageType := 2;
     Tick.messageTypeLabel := "LTP" |}.

(** The loaded module with one tick in its store. *)
Definition one_tick_stored : State :=
  with_tickDataStore [(2885, example_tick)] (loaded [reliance]).

(** A record stored under security id 0. *)
Definition zero_tick : TickData :=
  {| Tick.securityId := 0;
     Tick.symbol := "securityId:0";
     Tick.price := 1%float;
     Tick.timestamp := 1700000000;
     Tick.messageType := 2;
     Tick.messageTypeLabel := "LTP" |}.

(** The loaded module with two clients on its one stream and a third
    on a stream that is not there. *)
Definition three_clients : State :=
  subscribeToTicks
    (subscribeToTicks (subscribeToTicks (loaded [reliance]) 0 "a1") 0 "b2")
    7 "c3".

(** The module loaded without an access token. *)
Definition no_token : State :=
  module_state [reliance] (Some "client") None [open_stream].

(* ================================================================== *)
(** * Properties of the map                                            *)
(* ================================================================== *)

Section JsMapFacts.
Context {K V : Type}.
Variable eqb : K -> K -> bool.
Hypothesis eqb_eq : forall a b, eqb a b = true <-> a = b.

Lemma eqb_refl_true k : eqb k k = true.
Proof. now apply eqb_eq. Qed.

Lemma get_set (m : @JsMap.t K V) k v k' :
  JsMap.get eqb (JsMap.set eqb m k v) k' =
  if eqb k' k then Some v else JsMap.get eqb m k'.
Proof.
  induction m as [|[k0 v0] r IH]; simpl.
  - reflexivity.
  - destruct (eqb k k0) eqn:E; simpl.
    + apply eqb_eq in E; subst k0.
      destruct (eqb k' k); reflexivity.
    + rewrite IH.
      destruct (eqb k' k0) eqn:E0; [|reflexivity].
      apply eqb_eq in E0; subst k0.
      destruct (eqb k' k) eqn:E1; [|reflexivity].
      apply eqb_eq in E1; subst k'.
      rewrite eqb_refl_true in E; discriminate.
Qed.

Lemma get_set_same (m : @JsMap.t K V) k v :
  JsMap.get eqb (JsMap.set eqb m k v) k = Some v.
Proof. rewrite get_set, eqb_refl_true; reflexivity. Qed.

Lemma get_absent (m : @JsMap.t K V) k :
  ~ In k (JsMap.keys m) -> JsMap.get eqb m k = None.
Proof.
  induction m as [|[k0 v0] r IH]; simpl; intros H.
  - reflexivity.
  - destruct (eqb k k0) eqn:E.
    + apply eqb_eq in E. subst k0. exfalso. apply H. now left.
    + apply IH. intros HI. apply H. now right.
Qed.

Lemma keys_delete_incl (m : @JsMap.t K V) k x :
  In x (JsMap.keys (JsMap.delete eqb m k)) -> In x (JsMap.keys m).
Proof.
  induction m as [|[k0 v0] r IH]; simpl; intros H.
  - exact H.
  - destruct (eqb k k0); simpl in H.
    + now right.
    + destruct H as [H|H]; [now left | right; now apply IH].
Qed.

Lemma nodup_delete (m : @JsMap.t K V) k :
  NoDup (JsMap.keys m) -> NoDup (JsMap.keys (JsMap.delete eqb m k)).
Proof.
  induction m as [|[k0 v0] r IH]; simpl; intros H.
  - constructor.
  - inversion H as [|? ? Hn Hr]; subst.
    destruct (eqb k k0); simpl.
    + exact Hr.
    + constructor; [|now apply IH].
      intros HI. apply Hn. now apply keys_delete_incl in HI.
Qed.

Lemma get_delete_same (m : @JsMap.t K V) k :
  NoDup (JsMap.keys m) -> JsMap.get eqb (JsMap.delete eqb m k) k = None.
Proof.
  induction m as [|[k0 v0] r IH]; simpl; intros H.
  - reflexivity.
  - inversion H as [|? ? Hn Hr]; subst.
    destruct (eqb k k0) eqn:E; simpl.
    + apply eqb_eq in E. subst k0. now apply get_absent.
    + rewrite E. now apply IH.
Qed.

Lemma keys_set_incl (m : @JsMap.t K V) k v x :
  In x (JsMap.keys (JsMap.set eqb m k v)) -> x = k \/ In x (JsMap.keys m).
Proof.
  induction m as [|[k0 v0] r IH]; simpl; intros H.
  - destruct H as [H|[]]. now left.
  - destruct (eqb k k0); simpl in H.
    + now right.
    + destruct H as [H|H]; [right; now left|].
      destruct (IH H) as [Hk|Hr]; [now left | right; now right].
Qed.

Lemma nodup_set (m : @JsMap.t K V) k v :
  NoDup (JsMap.keys m) -> NoDup (JsMap.keys (JsMap.set eqb m k v)).
Proof.
  induction m as [|[k0 v0] r IH]; simpl; intros H.
  - constructor; [intros []|constructor].
  - inversion H as [|? ? Hn Hr]; subst.
    destruct (eqb k k0) eqn:E; simpl.
    + constructor; assumption.
    + constructor; [|now apply IH].
      intros HI. apply keys_set_incl in HI. destruct HI as [Hk|HI].
      * subst k0. rewrite eqb_refl_true in E. discriminate.
      * now apply Hn.
Qed.
End JsMapFacts.

Lemma key_eqb_eq a b : key_eqb a b = true <-> a = b.
Proof.
  destruct a as [x|], b as [y|]; simpl; split; intros H;
    try discriminate; try reflexivity.
  - apply String.eqb_eq in H. now subst.
  - injection H as ->. apply String.eqb_refl.
Qed.

(* ================================================================== *)
(** * The instrument table                                             *)
(* ================================================================== *)

Lemma table_get_absent (l : list DhanInstrument) (m : SymbolTable) k :
  (forall inst, In inst l -> securityId inst <> k) ->
  JsMap.get key_eqb
    (fold_left (fun m inst => JsMap.set key_eqb m (securityId inst) (symbol inst)) l m) k
  = JsMap.get key_eqb m k.
Proof.
  revert m. induction l as [|inst l IH]; intros m H; simpl.
  - reflexivity.
  - rewrite IH by (intros i Hi; apply H; now right).
    rewrite (get_set key_eqb key_eqb_eq).
    destruct (key_eqb k (securityId inst)) eqn:E; [|reflexivity].
    apply key_eqb_eq in E. exfalso. apply (H inst); [now left | now symmetry].
Qed.

Lemma table_get_last (l1 l2 : list DhanInstrument) inst k :
  securityId inst = k ->
  (forall i, In i l2 -> securityId i <> k) ->
  JsMap.get key_eqb (build_SECURITY_ID_TO_SYMBOL (l1 ++ inst :: l2)) k
  = Some (symbol inst).
Proof.
  intros Hk H2. unfold build_SECURITY_ID_TO_SYMBOL.
  rewrite fold_left_app. simpl.
  rewrite table_get_absent by exact H2.
  subst k. apply (get_set_same key_eqb key_eqb_eq).
Qed.

Lemma String_of_num_nonempty n : Js.String_of_num n <> EmptyString.
Proof.
  unfold Js.String_of_num.
  assert (H : N.to_uint (Z.to_N n) <> Decimal.Nil).
  { destruct (Z.to_N n) as [|p]; simpl.
    - discriminate.
    - apply DecimalPos.Unsigned.to_uint_nonnil. }
  destruct (N.to_uint (Z.to_N n)); try discriminate.
  now contradiction H.
Qed.

(** C6. For a security id that no instrument of the configured list
    carries, [resolveSymbol] returns "securityId:" followed by the id;
    for an id that some instrument carries, it returns the symbol of
    the last such instrument, which is the one the table holds.  Security
    ids are non-empty strings. *)
Theorem resolveSymbol_table :
  forall (instruments : list DhanInstrument) (sid : string),
    sid <> EmptyString ->
    let tbl := build_SECURITY_ID_TO_SYMBOL instruments in
    ((forall inst, In inst instruments -> securityId inst <> Some sid) ->
     resolveSymbol tbl (Some sid) = ("securityId:" ++ sid)%string)
    /\
    (forall l1 inst l2,
        instruments = l1 ++ inst :: l2 ->
        securityId inst = Some sid ->
        (forall i, In i l2 -> securityId i <> Some sid) ->
        resolveSymbol tbl (Some sid) = symbol inst).
Proof.
  intros instruments sid Hne tbl. subst tbl.
  unfold resolveSymbol.
  destruct sid as [|c sid']; [now contradiction Hne|]. simpl Js.truthy_str. simpl negb.
  cbv iota. split.
  - intros Habs. unfold build_SECURITY_ID_TO_SYMBOL.
    rewrite table_get_absent by exact Habs. reflexivity.
  - intros l1 inst l2 -> Hk H2.
    rewrite (table_get_last l1 l2 inst (Some (String c sid')) Hk H2).
    reflexivity.
Qed.

Lemma resolveSymbol_table_witness :
  resolveSymbol (build_SECURITY_ID_TO_SYMBOL [reliance; tcs]) (Some "404")
  = "securityId:404"
  /\ resolveSymbol (build_SECURITY_ID_TO_SYMBOL [reliance; tcs]) (Some "2885")
     = "RELIANCE".
Proof.
  assert (Hne : "404" <> EmptyString) by discriminate.
  assert (Hne' : "2885" <> EmptyString) by discriminate.
  split.
  - apply (proj1 (resolveSymbol_table [reliance; tcs] "404" Hne)).
    intros inst [<-|[<-|[]]]; discriminate.
  - apply (proj2 (resolveSymbol_table [reliance; tcs] "2885" Hne') [] reliance [tcs]).
    + reflexivity.
    + reflexivity.
    + intros i [<-|[]]; discriminate.
Defined.

(** The guard in front of the lookup: a missing or empty argument gives
    "UNKNOWN", whatever the table holds. *)
Lemma resolveSymbol_falsy tbl :
  resolveSymbol tbl None = "UNKNOWN" /\ resolveSymbol tbl (Some EmptyString) = "UNKNOWN".
Proof. split; reflexivity. Qed.

(** [handleMessage] resolves [String(securityId)], which is never
    empty, so the guard does not fire on that path. *)
Lemma resolveSymbol_of_number (instruments : list DhanInstrument) (n : Z) :
  (forall inst, In inst instruments ->
                securityId inst <> Some (Js.String_of_num n)) ->
  resolveSymbol (build_SECURITY_ID_TO_SYMBOL instruments)
                (Some (Js.String_of_num n))
  = ("securityId:" ++ Js.String_of_num n)%string.
Proof.
  intros H.
  destruct (String.string_dec (Js.String_of_num n) EmptyString) as [E|E].
  - now apply String_of_num_nonempty in E.
  - unfold resolveSymbol.
    destruct (Js.String_of_num n) as [|c r] eqn:En; [now contradiction E|].
    simpl. unfold build_SECURITY_ID_TO_SYMBOL.
    rewrite table_get_absent by exact H. reflexivity.
Qed.

(* ================================================================== *)
(** * The trading window                                               *)
(* ================================================================== *)

Lemma utc_minute_of_day now :
  Js.getUTCHours now * 60 + Js.getUTCMinutes now = (now / 60000) mod 1440.
Proof.
  unfold Js.getUTCHours, Js.getUTCMinutes.
  replace 3600000 with (60000 * 60) by reflexivity.
  rewrite <- Z.div_div by lia.
  generalize (now / 60000). intros m.
  Z.to_euclidean_division_equations. lia.
Qed.

Lemma ist_minute_shift now :
  ist_minute_of_day now = (now / 60000 + 330) mod 1440.
Proof.
  unfold ist_minute_of_day. rewrite Z.div_add by lia. reflexivity.
Qed.

(** C5. [isMarketOpen] is true exactly when the minute of the day at
    UTC+5:30 lies between 09:15 (555) and 15:30 (930), both included:
    true at 09:15 and 15:30, false at 09:14 and 15:31. *)
Theorem isMarketOpen_window :
  forall now : Z,
    (isMarketOpen now = true <-> 9 * 60 + 15 <= ist_minute_of_day now <= 15 * 60 + 30)
    /\ (ist_minute_of_day now = 9 * 60 + 15 -> isMarketOpen now = true)
    /\ (ist_minute_of_day now = 15 * 60 + 30 -> isMarketOpen now = true)
    /\ (ist_minute_of_day now = 9 * 60 + 14 -> isMarketOpen now = false)
    /\ (ist_minute_of_day now = 15 * 60 + 31 -> isMarketOpen now = false).
Proof.
  intros now.
  assert (Hiff : isMarketOpen now = true <->
                 9 * 60 + 15 <= ist_minute_of_day now <= 15 * 60 + 30).
  { unfold isMarketOpen, marketOpen, marketClose.
    rewrite utc_minute_of_day, ist_minute_shift.
    rewrite andb_true_iff, !Z.leb_le.
    generalize (now / 60000). intros m.
    Z.to_euclidean_division_equations. lia. }
  split; [exact Hiff|].
  split; [|split; [|split]]; intros H.
  - apply Hiff. lia.
  - apply Hiff. lia.
  - apply not_true_is_false. intros E. apply Hiff in E. lia.
  - apply not_true_is_false. intros E. apply Hiff in E. lia.
Qed.

Lemma isMarketOpen_window_witness :
  isMarketOpen t_0915 = true /\ isMarketOpen t_1530 = true
  /\ isMarketOpen t_0914 = false /\ isMarketOpen t_1531 = false.
Proof.
  split; [|split; [|split]].
  - apply (proj1 (proj2 (isMarketOpen_window t_0915))). reflexivity.
  - apply (proj1 (proj2 (proj2 (isMarketOpen_window t_1530)))). reflexivity.
  - apply (proj1 (proj2 (proj2 (proj2 (isMarketOpen_window t_0914))))). reflexivity.
  - apply (proj2 (proj2 (proj2 (proj2 (isMarketOpen_window t_1531))))). reflexivity.
Defined.

(** The older revision shifts by 300 minutes instead of 330 and so
    reports the market closed at 09:15 IST. *)
Lemma Rev1_isMarketOpen_differs :
  Rev1.isMarketOpen t_0915 = false /\ isMarketOpen t_0915 = true.
Proof. split; reflexivity. Qed.

(* ================================================================== *)
(** * The tick decoder                                                 *)
(* ================================================================== *)

Lemma parseBinaryTick_short (buf : Buffer) :
  (List.length buf <= 15)%nat -> parseBinaryTick buf = None.
Proof.
  intros H. unfold parseBinaryTick.
  destruct (List.length buf <? 16)%nat eqn:E; [reflexivity|].
  apply Nat.ltb_ge in E. lia.
Qed.

(** C2. A binary frame of at most 15 bytes, whatever the bytes, does
    not decode, and [handleMessage] leaves the whole state as it was:
    the tick store, the streams of the SSE clients and the transport
    included. *)
Theorem short_frame_dropped :
  forall (s : State) (buf : Buffer),
    (List.length buf <= 15)%nat ->
    parseBinaryTick buf = None
    /\ handleMessage s (BinaryData buf) = s
    /\ (ws s = Some OPEN ->
        step s (WsMessage (BinaryData buf)) = Some (s, None)).
Proof.
  intros s buf H.
  pose proof (parseBinaryTick_short buf H) as Hp.
  assert (Hh : handleMessage s (BinaryData buf) = s).
  { unfold handleMessage. rewrite Hp. reflexivity. }
  split; [exact Hp|]. split; [exact Hh|].
  intros Hws. unfold step. rewrite Hws, Hh. reflexivity.
Qed.

Lemma short_frame_dropped_witness :
  parseBinaryTick (firstn 15 (example_frame Byte.x00 Byte.x00 Byte.x00)) = None
  /\ handleMessage (loaded [reliance])
       (BinaryData (firstn 15 (example_frame Byte.x00 Byte.x00 Byte.x00)))
     = loaded [reliance].
Proof.
  assert (H : (List.length (firstn 15 (example_frame Byte.x00 Byte.x00 Byte.x00))
               <= 15)%nat) by (simpl; lia).
  split.
  - exact (proj1 (short_frame_dropped (loaded [reliance]) _ H)).
  - exact (proj1 (proj2 (short_frame_dropped (loaded [reliance]) _ H))).
Defined.

(** A frame of 16 bytes or more always decodes: no read is out of
    range. *)
Lemma parseBinaryTick_long (buf : Buffer) :
  (16 <= List.length buf)%nat -> exists t, parseBinaryTick buf = Some t.
Proof.
  intros H. unfold parseBinaryTick.
  destruct (List.length buf <? 16)%nat eqn:E.
  - apply Nat.ltb_lt in E. lia.
  - do 16 (destruct buf as [|? buf]; [simpl in H; lia|]).
    eexists. reflexivity.
Qed.

(** C3. The 16-byte frame with byte 0 equal to 2, bytes 4-7 the
    little-endian 2885, bytes 8-11 the little-endian binary32 pattern
    of 2456.5 and bytes 12-15 the little-endian 1700000000 decodes to
    message type 2, security id 2885, price 2456.5 and timestamp
    1700000000, whatever bytes 1-3 are. *)
Theorem parseBinaryTick_example :
  forall b1 b2 b3 : Byte.byte,
    example_frame b1 b2 b3
    = [Byte.x02; b1; b2; b3] ++ le32 2885 ++ le32 0x45198800 ++ le32 1700000000
    /\ List.length (example_frame b1 b2 b3) = 16%nat
    /\ Js.float_of_binary32 0x45198800 = 2456.5%float
    /\ (exists q, Js.to_Q 2456.5%float = Some q /\ (q == 4913 # 2)%Q)
    /\ parseBinaryTick (example_frame b1 b2 b3)
       = Some {| Parsed.messageType := 2;
                 Parsed.securityId := 2885;
                 Parsed.price := 2456.5%float;
                 Parsed.timestamp := 1700000000 |}.
Proof.
  intros b1 b2 b3.
  split; [reflexivity|].
  split; [reflexivity|].
  split; [vm_compute; reflexivity|].
  split.
  - eexists. split; [vm_compute; reflexivity|]. reflexivity.
  - vm_compute. reflexivity.
Qed.

(** What [handleMessage] makes of that frame: the record goes into the
    store under 2885 with its symbol and label, and to the client's
    stream. *)
Lemma handleMessage_example (b1 b2 b3 : Byte.byte) :
  let s := subscribeToTicks (loaded [reliance]) 0 "k3x9" in
  let s' := handleMessage s (BinaryData (example_frame b1 b2 b3)) in
  tickDataStore s' = [(2885, example_tick)]
  /\ streams s' = [{| closed := false; queue := [TickMessage example_tick] |}].
Proof. vm_compute. split; reflexivity. Qed.

(* ================================================================== *)
(** * The store accessor                                               *)
(* ================================================================== *)

(** C10. [getTickData(0)] returns the whole store, as the call without
    argument does, and never a single record, also when the store holds
    a record under security id 0. *)
Theorem getTickData_zero :
  forall s : State,
    getTickData s (Some 0) = WholeStore (tickDataStore s)
    /\ getTickData s (Some 0) = getTickData s None
    /\ (forall r, getTickData s (Some 0) <> OneTick r)
    /\ getTickData (with_tickDataStore
                      (JsMap.set Z.eqb (tickDataStore s) 0 zero_tick) s) (Some 0)
       <> OneTick (Some zero_tick).
Proof.
  intros s. unfold getTickData. simpl.
  split; [reflexivity|]. split; [reflexivity|].
  split; [intros r; discriminate | discriminate].
Qed.

(** Any other integer id is looked up. *)
Lemma getTickData_nonzero (s : State) (k : Z) :
  k <> 0 -> getTickData s (Some k) = OneTick (JsMap.get Z.eqb (tickDataStore s) k).
Proof.
  intros H. unfold getTickData. simpl.
  destruct (k =? 0) eqn:E; [apply Z.eqb_eq in E; contradiction|reflexivity].
Qed.

Lemma getTickData_zero_stored :
  let s := with_tickDataStore [(0, zero_tick); (2885, example_tick)]
                              (loaded [reliance]) in
  JsMap.get Z.eqb (tickDataStore s) 0 = Some zero_tick
  /\ getTickData s (Some 0) = WholeStore [(0, zero_tick); (2885, example_tick)]
  /\ getTickData s (Some 2885) = OneTick (Some example_tick).
Proof. repeat split. Qed.

(* ================================================================== *)
(** * The batched subscription                                         *)
(* ================================================================== *)

Lemma batch_loop_step fuel l i :
  batch_loop (S fuel) l i =
  if (i <? List.length l)%nat
  then subscribe_payload (slice l i (i + BATCH_SIZE))
       :: batch_loop fuel l (i + BATCH_SIZE)
  else [].
Proof. reflexivity. Qed.

(** More fuel than the loop needs changes nothing. *)
Lemma batch_loop_fuel fuel extra l i :
  (List.length l <= i + fuel * BATCH_SIZE)%nat ->
  batch_loop (fuel + extra) l i = batch_loop fuel l i.
Proof.
  revert i. induction fuel as [|fuel IH]; intros i H.
  - simpl in *. destruct extra as [|extra]; [reflexivity|].
    rewrite batch_loop_step.
    destruct (i <? List.length l)%nat eqn:E; [|reflexivity].
    apply Nat.ltb_lt in E. lia.
  - change (S fuel + extra)%nat with (S (fuel + extra)).
    rewrite !batch_loop_step.
    destruct (i <? List.length l)%nat; [|reflexivity].
    f_equal. apply IH. unfold BATCH_SIZE in *. lia.
Qed.

(** The fuel [subscription_messages] gives the loop is enough. *)
Lemma batch_loop_enough l extra :
  batch_loop (List.length l + extra) l 0 = batch_loop (List.length l) l 0.
Proof. apply batch_loop_fuel. unfold BATCH_SIZE. lia. Qed.

(** The requests carry the instruments from index [i] on, each once
    and in the list's order, at most [BATCH_SIZE] per request. *)
Lemma batch_loop_covers fuel l i :
  (List.length l <= i + fuel * BATCH_SIZE)%nat ->
  flat_map payload_instruments (batch_loop fuel l i) = map to_ref (skipn i l).
Proof.
  revert i. induction fuel as [|fuel IH]; intros i H.
  - simpl in *. rewrite skipn_all2 by lia. reflexivity.
  - rewrite batch_loop_step.
    destruct (i <? List.length l)%nat eqn:E.
    + simpl flat_map. rewrite IH by (unfold BATCH_SIZE in *; lia).
      unfold slice. rewrite <- map_app. f_equal.
      replace (i + BATCH_SIZE - i)%nat with BATCH_SIZE by lia.
      rewrite Nat.add_comm, <- skipn_skipn.
      apply firstn_skipn.
    + apply Nat.ltb_ge in E. rewrite skipn_all2 by lia. reflexivity.
Qed.

Lemma batch_loop_sizes fuel l i p :
  In p (batch_loop fuel l i) ->
  exists batch, p = SubscribeRequest 15 (Z.of_nat (List.length batch)) (map to_ref batch)
                /\ (0 < List.length batch <= BATCH_SIZE)%nat.
Proof.
  revert i. induction fuel as [|fuel IH]; intros i H.
  - destruct H.
  - rewrite batch_loop_step in H.
    destruct (i <? List.length l)%nat eqn:E; [|destruct H].
    destruct H as [<-|H]; [|exact (IH _ H)].
    apply Nat.ltb_lt in E.
    exists (slice l i (i + BATCH_SIZE)). split; [reflexivity|].
    unfold slice. rewrite length_firstn, length_skipn.
    unfold BATCH_SIZE. lia.
Qed.

(** C4. With 220 well-formed instruments, the market open and the
    transport open, [subscribeToStockCodes] sends exactly four
    messages and throws nothing: three subscribe requests with request
    code 15 whose lists are the pairs of exchange segment and security
    id of the first 100, the next 100 and the last 20 instruments, in
    the list's order, each with its size as [InstrumentCount], and then
    the mode request with request code 16 and mode 1.  The instrument
    list and the rest of the state are the same afterwards. *)
Theorem subscribe_220_batches :
  forall (s : State) (now : Z),
    List.length (STOCK_INSTRUMENTS s) = 220%nat ->
    validateInstruments (STOCK_INSTRUMENTS s) = None ->
    isMarketOpen now = true ->
    ws s = Some OPEN ->
    let l := STOCK_INSTRUMENTS s in
    let pair_of := fun inst : DhanInstrument =>
                     {| ExchangeSegment := exchange inst;
                        SecurityId := securityId inst |} in
    let b1 := firstn 100 l in
    let b2 := firstn 100 (skipn 100 l) in
    let b3 := skipn 200 l in
    let s' := fst (subscribeToStockCodes s now) in
    l = b1 ++ b2 ++ b3
    /\ List.length b1 = 100%nat /\ List.length b2 = 100%nat
    /\ List.length b3 = 20%nat
    /\ snd (subscribeToStockCodes s now) = None
    /\ sent s' = sent s ++ [SubscribeRequest 15 100 (map pair_of b1);
                            SubscribeRequest 15 100 (map pair_of b2);
                            SubscribeRequest 15 20 (map pair_of b3);
                            ModeRequest 16 1]
    /\ map pair_of b1 ++ map pair_of b2 ++ map pair_of b3 = map pair_of l
    /\ (forall i inst,
           nth_error l i = Some inst ->
           nth_error (map pair_of b1 ++ map pair_of b2 ++ map pair_of b3) i
           = Some {| ExchangeSegment := exchange inst;
                     SecurityId := securityId inst |})
    /\ STOCK_INSTRUMENTS s' = l
    /\ (ws s' = ws s /\ isConnecting s' = isConnecting s
        /\ reconnectDelay s' = reconnectDelay s
        /\ reconnectTimer s' = reconnectTimer s
        /\ tickDataStore s' = tickDataStore s /\ sseClients s' = sseClients s
        /\ streams s' = streams s /\ timers s' = timers s
        /\ scheduled s' = scheduled s /\ connects s' = connects s).
Proof.
  intros s now Hlen Hval Hopen Hws l pair_of b1 b2 b3 s'.
  assert (L1 : List.length b1 = 100%nat).
  { subst b1 l. rewrite length_firstn, Hlen. reflexivity. }
  assert (L2 : List.length b2 = 100%nat).
  { subst b2 l. rewrite length_firstn, length_skipn, Hlen. reflexivity. }
  assert (L3 : List.length b3 = 20%nat).
  { subst b3 l. rewrite length_skipn, Hlen. reflexivity. }
  assert (Hsplit : l = b1 ++ b2 ++ b3).
  { subst b1 b2 b3.
    replace (skipn 200 l) with (skipn 100 (skipn 100 l))
      by (rewrite skipn_skipn; reflexivity).
    rewrite firstn_skipn, firstn_skipn. reflexivity. }
  assert (Hmsgs : subscription_messages l
                  = [SubscribeRequest 15 100 (map pair_of b1);
                     SubscribeRequest 15 100 (map pair_of b2);
                     SubscribeRequest 15 20 (map pair_of b3);
                     ModeRequest 16 1]).
  { unfold subscription_messages. fold l in Hlen. rewrite Hlen.
    change 220%nat with (S (S (S (S 216)))).
    do 4 rewrite batch_loop_step. rewrite Hlen.
    change (0 <? 220)%nat with true.
    change (0 + BATCH_SIZE <? 220)%nat with true.
    change (0 + BATCH_SIZE + BATCH_SIZE <? 220)%nat with true.
    change (0 + BATCH_SIZE + BATCH_SIZE + BATCH_SIZE <? 220)%nat with false.
    cbv iota.
    change (slice l 0 (0 + BATCH_SIZE)) with b1.
    change (slice l (0 + BATCH_SIZE) (0 + BATCH_SIZE + BATCH_SIZE)) with b2.
    assert (E3 : slice l (0 + BATCH_SIZE + BATCH_SIZE)
                       (0 + BATCH_SIZE + BATCH_SIZE + BATCH_SIZE) = b3).
    { unfold slice.
      change (0 + BATCH_SIZE + BATCH_SIZE + BATCH_SIZE
              - (0 + BATCH_SIZE + BATCH_SIZE))%nat with 100%nat.
      change (0 + BATCH_SIZE + BATCH_SIZE)%nat with 200%nat.
      fold b3. apply firstn_all2. rewrite L3. lia. }
    rewrite E3. unfold subscribe_payload. rewrite L1, L2, L3.
    reflexivity. }
  assert (Hrun : subscribeToStockCodes s now
                 = (with_sent (sent s ++ subscription_messages l) s, None)).
  { unfold subscribeToStockCodes. rewrite Hopen, Hws, Hval. reflexivity. }
  assert (Hcat : map pair_of b1 ++ map pair_of b2 ++ map pair_of b3
                 = map pair_of l).
  { rewrite <- !map_app, <- Hsplit. reflexivity. }
  split; [exact Hsplit|]. split; [exact L1|]. split; [exact L2|].
  split; [exact L3|].
  split; [rewrite Hrun; reflexivity|].
  split; [subst s'; rewrite Hrun; simpl; rewrite Hmsgs; reflexivity|].
  split; [exact Hcat|].
  split.
  { intros i inst Hi. rewrite Hcat. rewrite nth_error_map, Hi. reflexivity. }
  subst s'. rewrite Hrun. simpl. repeat split.
Qed.

Lemma subscribe_220_batches_witness :
  sent (fst (subscribeToStockCodes open220 t_0915))
  = sent open220
    ++ [SubscribeRequest 15 100
          (map (fun inst => {| ExchangeSegment := exchange inst;
                               SecurityId := securityId inst |})
               (firstn 100 instruments220));
        SubscribeRequest 15 100
          (map (fun inst => {| ExchangeSegment := exchange inst;
                               SecurityId := securityId inst |})
               (firstn 100 (skipn 100 instruments220)));
        SubscribeRequest 15 20
          (map (fun inst => {| ExchangeSegment := exchange inst;
                               SecurityId := securityId inst |})
               (skipn 200 instruments220));
        ModeRequest 16 1].
Proof.
  assert (H1 : List.length (STOCK_INSTRUMENTS open220) = 220%nat)
    by (vm_compute; reflexivity).
  assert (H2 : validateInstruments (STOCK_INSTRUMENTS open220) = None)
    by (vm_compute; reflexivity).
  assert (H3 : isMarketOpen t_0915 = true) by reflexivity.
  assert (H4 : ws open220 = Some OPEN) by reflexivity.
  exact (proj1 (proj2 (proj2 (proj2 (proj2 (proj2
           (subscribe_220_batches open220 t_0915 H1 H2 H3 H4))))))).
Defined.

(** On the 220 sample instruments: the second request starts with the
    pair of the 101st instrument and the third ends with that of the
    220th. *)
Lemma subscribe_220_sample :
  match sent (fst (subscribeToStockCodes open220 t_0915)) with
  | [SubscribeRequest 15 100 l1; SubscribeRequest 15 100 l2;
     SubscribeRequest 15 20 l3; ModeRequest 16 1] =>
      hd_error l1 = Some {| ExchangeSegment := Some "NSE_EQ"; SecurityId := Some "1" |}
      /\ hd_error l2
         = Some {| ExchangeSegment := Some "NSE_EQ"; SecurityId := Some "101" |}
      /\ nth_error l3 19
         = Some {| ExchangeSegment := Some "NSE_EQ"; SecurityId := Some "220" |}
  | _ => False
  end.
Proof. vm_compute. repeat split. Qed.

(** The older revision sends the 220 instruments in one request, with
    request code 21. *)
Lemma Rev1_subscribe_one_request l :
  Rev1Subscribe.subscription_messages l
  = [SubscribeRequest 21 (Z.of_nat (List.length l)) (map to_ref l);
     ModeRequest 16 1].
Proof. reflexivity. Qed.

(* ================================================================== *)
(** * Streams: what is written stays written                           *)
(* ================================================================== *)

Ltac break_match :=
  match goal with
  | |- context [match ?x with _ => _ end] => destruct x eqn:?
  | H : context [match ?x with _ => _ end] |- _ => destruct x eqn:?
  end.

Lemma nth_error_replace_same {A} (l : list A) n x y :
  nth_error l n = Some y -> nth_error (replace_nth l n x) n = Some x.
Proof.
  revert n. induction l as [|a l IH]; intros [|n] H; simpl in *;
    try discriminate; auto.
Qed.

Lemma nth_error_replace_other {A} (l : list A) n m x :
  n <> m -> nth_error (replace_nth l n x) m = nth_error l m.
Proof.
  revert n m. induction l as [|a l IH]; intros [|n] [|m] H; simpl;
    try reflexivity; try congruence.
  apply IH. congruence.
Qed.

Lemma queues_extended_refl h : queues_extended h h.
Proof.
  intros c ctl H. exists ctl, []. rewrite app_nil_r. auto.
Qed.

Lemma queues_extended_trans h1 h2 h3 :
  queues_extended h1 h2 -> queues_extended h2 h3 -> queues_extended h1 h3.
Proof.
  intros H12 H23 c ctl H.
  destruct (H12 c ctl H) as (ctl2 & l2 & Hn2 & Hq2).
  destruct (H23 c ctl2 Hn2) as (ctl3 & l3 & Hn3 & Hq3).
  exists ctl3, (l2 ++ l3). split; [exact Hn3|].
  rewrite Hq3, Hq2, app_assoc. reflexivity.
Qed.

Lemma enqueue_extends h c m h' :
  enqueue h c m = Some h' -> queues_extended h h'.
Proof.
  unfold enqueue. intros H.
  destruct (nth_error h c) as [ctl0|] eqn:E; [|discriminate].
  destruct (closed ctl0); [discriminate|].
  injection H as <-.
  intros c' ctl Hc'.
  destruct (Nat.eq_dec c c') as [->|Hne].
  - rewrite (nth_error_replace_same h c' _ _ E).
    rewrite E in Hc'. injection Hc' as <-.
    eexists _, [m]. split; reflexivity.
  - rewrite nth_error_replace_other by exact Hne.
    exists ctl, []. rewrite app_nil_r. auto.
Qed.

Lemma deliver_fold_extends m entries :
  forall h toRemove,
    queues_extended h (fst (fold_left (deliver m) entries (h, toRemove))).
Proof.
  induction entries as [|entry entries IH]; intros h toRemove; simpl.
  - apply queues_extended_refl.
  - destruct (enqueue h (controller (snd entry)) m) as [h1|] eqn:E.
    + eapply queues_extended_trans; [eapply enqueue_extends; exact E|].
      apply IH.
    + apply IH.
Qed.

Lemma broadcastTickData_extends s t :
  queues_extended (streams s) (streams (broadcastTickData s t)).
Proof.
  unfold broadcastTickData.
  pose proof (deliver_fold_extends (TickMessage t) (sseClients s) (streams s) [])
    as H.
  destruct (fold_left (deliver (TickMessage t)) (sseClients s) (streams s, []))
    as [h toRemove].
  exact H.
Qed.

Lemma handleMessage_extends s data :
  queues_extended (streams s) (streams (handleMessage s data)).
Proof.
  unfold handleMessage.
  destruct data as [buf|text]; [|apply queues_extended_refl].
  destruct (parseBinaryTick buf) as [t|]; [|apply queues_extended_refl].
  match goal with
  | |- queues_extended _ (streams (broadcastTickData ?s1 ?t1)) =>
      exact (broadcastTickData_extends s1 t1)
  end.
Qed.

Lemma subscribeToTicks_extends s c id :
  queues_extended (streams s) (streams (subscribeToTicks s c id)).
Proof.
  unfold subscribeToTicks.
  destruct (0 <? _)%nat; [|apply queues_extended_refl].
  match goal with
  | |- context [enqueue ?h ?c ?m] => destruct (enqueue h c m) eqn:E
  end; [|apply queues_extended_refl].
  simpl in *. eapply enqueue_extends. exact E.
Qed.

Lemma step_streams s e s' thrown :
  step s e = Some (s', thrown) -> queues_extended (streams s) (streams s').
Proof.
  intros H.
  destruct e; simpl in H.
  - unfold initDhanSocket, connectWebSocket in H.
    repeat break_match; inversion H; subst; apply queues_extended_refl.
  - inversion H; subst. unfold closeSocket, clearTimeout.
    repeat break_match; apply queues_extended_refl.
  - inversion H; subst. apply subscribeToTicks_extends.
  - inversion H; subst. apply queues_extended_refl.
  - unfold on_open, subscribeToStockCodes in H.
    repeat break_match; inversion H; subst; apply queues_extended_refl.
  - repeat break_match; inversion H; subst; apply handleMessage_extends.
  - repeat break_match; inversion H; subst; apply queues_extended_refl.
  - repeat break_match; inversion H; subst; apply queues_extended_refl.
  - unfold on_close, setTimeout in H.
    repeat break_match; inversion H; subst; apply queues_extended_refl.
  - unfold reconnect_callback, connectWebSocket, clearTimeout in H.
    repeat break_match; inversion H; subst; apply queues_extended_refl.
Qed.

Lemma run_streams tr :
  forall s s' errs,
    run s tr = Some (s', errs) -> queues_extended (streams s) (streams s').
Proof.
  induction tr as [|e tr IH]; intros s s' errs H; simpl in H.
  - inversion H; subst. apply queues_extended_refl.
  - destruct (step s e) as [[s1 thrown]|] eqn:E; [|discriminate].
    destruct (run s1 tr) as [[s2 errs2]|] eqn:E2; [|discriminate].
    inversion H; subst.
    eapply queues_extended_trans.
    + eapply step_streams. exact E.
    + eapply IH. exact E2.
Qed.

(* ================================================================== *)
(** * The client registry holds each id once                           *)
(* ================================================================== *)

Lemma fold_delete_nodup (ids : list string) :
  forall m : ClientMap,
    NoDup (JsMap.keys m) ->
    NoDup (JsMap.keys (fold_left (fun m id => JsMap.delete String.eqb m id) ids m)).
Proof.
  induction ids as [|i ids IH]; intros m H; simpl.
  - exact H.
  - apply IH. apply (nodup_delete String.eqb). exact H.
Qed.

Lemma handleMessage_clients_nodup s data :
  NoDup (JsMap.keys (sseClients s)) ->
  NoDup (JsMap.keys (sseClients (handleMessage s data))).
Proof.
  intros H. unfold handleMessage.
  destruct data as [buf|text]; [|exact H].
  destruct (parseBinaryTick buf) as [t|]; [|exact H].
  unfold broadcastTickData.
  match goal with
  | |- context [fold_left (deliver ?m) ?cs ?acc] =>
      destruct (fold_left (deliver m) cs acc) as [h toRemove]
  end.
  simpl. apply fold_delete_nodup. exact H.
Qed.

Lemma subscribeToTicks_clients s c id :
  sseClients (subscribeToTicks s c id)
  = JsMap.set String.eqb (sseClients s) id {| controller := c; id := id |}.
Proof.
  unfold subscribeToTicks.
  destruct (0 <? _)%nat; [|reflexivity].
  match goal with
  | |- context [enqueue ?h ?c ?m] => destruct (enqueue h c m)
  end; reflexivity.
Qed.

Lemma step_clients_nodup s e s' thrown :
  NoDup (JsMap.keys (sseClients s)) ->
  step s e = Some (s', thrown) ->
  NoDup (JsMap.keys (sseClients s')).
Proof.
  intros Hnd H.
  destruct e; simpl in H.
  - unfold initDhanSocket, connectWebSocket in H.
    repeat break_match; inversion H; subst; exact Hnd.
  - inversion H; subst. unfold closeSocket, clearTimeout.
    repeat break_match; exact Hnd.
  - inversion H; subst. rewrite subscribeToTicks_clients.
    apply (nodup_set String.eqb String.eqb_eq). exact Hnd.
  - inversion H; subst. simpl. apply (nodup_delete String.eqb). exact Hnd.
  - unfold on_open, subscribeToStockCodes in H.
    repeat break_match; inversion H; subst; exact Hnd.
  - repeat break_match; inversion H; subst;
      apply handleMessage_clients_nodup; exact Hnd.
  - repeat break_match; inversion H; subst; exact Hnd.
  - repeat break_match; inversion H; subst; exact Hnd.
  - unfold on_close, setTimeout in H.
    repeat break_match; inversion H; subst; exact Hnd.
  - unfold reconnect_callback, connectWebSocket, clearTimeout in H.
    repeat break_match; inversion H; subst; exact Hnd.
Qed.

(** In every state the module reaches, no id is registered twice. *)
Lemma run_clients_nodup tr :
  forall s s' errs,
    NoDup (JsMap.keys (sseClients s)) ->
    run s tr = Some (s', errs) ->
    NoDup (JsMap.keys (sseClients s')).
Proof.
  induction tr as [|e tr IH]; intros s s' errs Hnd H; simpl in H.
  - inversion H; subst. exact Hnd.
  - destruct (step s e) as [[s1 thrown]|] eqn:E; [|discriminate].
    destruct (run s1 tr) as [[s2 errs2]|] eqn:E2; [|discriminate].
    inversion H; subst.
    eapply IH; [|exact E2]. eapply step_clients_nodup; eassumption.
Qed.

Lemma reachable_clients_nodup instruments cid tok h tr s errs :
  run (module_state instruments cid tok h) tr = Some (s, errs) ->
  NoDup (JsMap.keys (sseClients s)).
Proof.
  intros H. eapply run_clients_nodup; [|exact H]. constructor.
Qed.

(* ================================================================== *)
(** * Subscribing a stream                                             *)
(* ================================================================== *)




(** With an empty store or a stream that no longer accepts data, the
    call registers the client and writes nothing. *)
Lemma subscribeToTicks_silent (s : State) (c : nat) (id : string) :
  tickDataStore s = [] \/ enqueue (streams s) c
                            (InitialMessage (JsMap.values (tickDataStore s))) = None ->
  streams (subscribeToTicks s c id) = streams s.
Proof.
  intros [H|H]; unfold subscribeToTicks; simpl.
  - rewrite H. reflexivity.
  - destruct (0 <? _)%nat; [|reflexivity]. rewrite H. reflexivity.
Qed.

(** A tick that arrives after the subscription follows the initial
    message on the stream. *)
Lemma initial_then_tick (b1 b2 b3 : Byte.byte) :
  streams (handleMessage (subscribeToTicks one_tick_stored 0 "k3x9")
                         (BinaryData (example_frame b1 b2 b3)))
  = [{| closed := false;
        queue := [InitialMessage [example_tick]; TickMessage example_tick] |}].
Proof. vm_compute. reflexivity. Qed.

(* ================================================================== *)
(** * What the handlers leave alone                                    *)
(* ================================================================== *)

(** [handleMessage] touches the store, the clients and the streams
    only. *)
Lemma handleMessage_frame s data :
  let s' := handleMessage s data in
  ws s' = ws s /\ isConnecting s' = isConnecting s
  /\ reconnectDelay s' = reconnectDelay s /\ reconnectTimer s' = reconnectTimer s
  /\ timers s' = timers s /\ scheduled s' = scheduled s
  /\ sent s' = sent s /\ connects s' = connects s
  /\ STOCK_INSTRUMENTS s' = STOCK_INSTRUMENTS s.
Proof.
  unfold handleMessage.
  destruct data as [buf|text]; [|repeat split].
  destruct (parseBinaryTick buf) as [t|]; [|repeat split].
  unfold broadcastTickData.
  match goal with
  | |- context [fold_left (deliver ?m) ?cs ?acc] =>
      destruct (fold_left (deliver m) cs acc) as [h toRemove]
  end.
  repeat split.
Qed.

Lemma subscribeToTicks_frame s c id :
  let s' := subscribeToTicks s c id in
  ws s' = ws s /\ isConnecting s' = isConnecting s
  /\ reconnectDelay s' = reconnectDelay s /\ reconnectTimer s' = reconnectTimer s
  /\ timers s' = timers s /\ scheduled s' = scheduled s
  /\ sent s' = sent s /\ connects s' = connects s
  /\ STOCK_INSTRUMENTS s' = STOCK_INSTRUMENTS s.
Proof.
  unfold subscribeToTicks.
  destruct (0 <? _)%nat; [|repeat split].
  match goal with
  | |- context [enqueue ?h ?c ?m] => destruct (enqueue h c m)
  end; repeat split.
Qed.

(* ================================================================== *)
(** * The status query                                                 *)
(* ================================================================== *)

(** As long as no transport has ever been created, there is none and
    none is being connected. *)
Lemma step_connects s e s' thrown :
  (connects s = 0%nat -> ws s = None /\ isConnecting s = false) ->
  step s e = Some (s', thrown) ->
  (connects s' = 0%nat -> ws s' = None /\ isConnecting s' = false).
Proof.
  intros Hinv H.
  destruct e; simpl in H.
  - unfold initDhanSocket, connectWebSocket in H.
    repeat break_match; inversion H; subst; simpl; auto; discriminate.
  - inversion H; subst. unfold closeSocket, clearTimeout.
    repeat break_match; simpl; auto.
  - inversion H; subst.
    destruct (subscribeToTicks_frame s c id0) as (-> & -> & _ & _ & _ & _ & _ & -> & _).
    exact Hinv.
  - inversion H; subst. exact Hinv.
  - destruct (ws s) as [[| | |]|] eqn:E; try discriminate.
    unfold on_open, subscribeToStockCodes in H.
    repeat break_match; inversion H; subst; simpl; intros Hc;
      destruct (Hinv Hc); congruence.
  - destruct (ws s) as [[| | |]|] eqn:E; try discriminate;
      inversion H; subst;
      destruct (handleMessage_frame s data) as (-> & -> & _ & _ & _ & _ & _ & -> & _);
      rewrite E; intros Hc; destruct (Hinv Hc); congruence.
  - destruct (ws s) eqn:E; [|discriminate]. inversion H; subst.
    intros Hc. destruct (Hinv Hc). discriminate.
  - destruct (ws s) as [[| | |]|] eqn:E; try discriminate;
      inversion H; subst; simpl; intros Hc; destruct (Hinv Hc); congruence.
  - destruct (ws s) eqn:E; [|discriminate]. inversion H; subst.
    simpl. auto.
  - destruct (existsb (Nat.eqb handle) (timers s)); [|discriminate].
    unfold reconnect_callback, connectWebSocket in H.
    repeat break_match; inversion H; subst; simpl in *; auto; try discriminate.
Qed.

Lemma run_connects tr :
  forall s s' errs,
    (connects s = 0%nat -> ws s = None /\ isConnecting s = false) ->
    run s tr = Some (s', errs) ->
    (connects s' = 0%nat -> ws s' = None /\ isConnecting s' = false).
Proof.
  induction tr as [|e tr IH]; intros s s' errs Hinv H; simpl in H.
  - inversion H; subst. exact Hinv.
  - destruct (step s e) as [[s1 thrown]|] eqn:E; [|discriminate].
    destruct (run s1 tr) as [[s2 errs2]|] eqn:E2; [|discriminate].
    inversion H; subst.
    eapply IH; [|exact E2].
    eapply step_connects; eassumption.
Qed.

(** C8, as the code has it. The status is one of the four values and
    depends on the transport handle and the connecting flag only:
    "not_initialized" exactly when there is no handle and no connect in
    progress, "closed" exactly when a handle is held whose readyState
    is CLOSING or CLOSED, "open" and "connecting" accordingly.  Before
    any connect attempt the status is "not_initialized"; once the close
    handler has run it is "not_initialized" again. *)
Theorem getSocketStatus_cases :
  forall s : State,
    (getSocketStatus s = not_initialized
     <-> ws s = None /\ isConnecting s = false)
    /\ (getSocketStatus s = closed_status
        <-> ws s = Some CLOSING \/ ws s = Some CLOSED)
    /\ (getSocketStatus s = open <-> ws s = Some OPEN)
    /\ (getSocketStatus s = connecting
        <-> ws s = Some CONNECTING \/ (ws s = None /\ isConnecting s = true))
    /\ (forall s' thrown,
           step s WsClose = Some (s', thrown) ->
           getSocketStatus s' = not_initialized)
    /\ (forall instruments cid tok h tr errs,
           run (module_state instruments cid tok h) tr = Some (s, errs) ->
           connects s = 0%nat ->
           getSocketStatus s = not_initialized).
Proof.
  intros s.
  assert (Hni : getSocketStatus s = not_initialized
                <-> ws s = None /\ isConnecting s = false).
  { unfold getSocketStatus.
    destruct (ws s) as [[| | |]|]; destruct (isConnecting s);
      split; intros H; try discriminate; try (destruct H; discriminate); auto. }
  split; [exact Hni|].
  split.
  { unfold getSocketStatus.
    destruct (ws s) as [[| | |]|]; destruct (isConnecting s);
      split; intros H; try discriminate; auto;
      destruct H; discriminate. }
  split.
  { unfold getSocketStatus.
    destruct (ws s) as [[| | |]|]; destruct (isConnecting s);
      split; intros H; try discriminate; auto. }
  split.
  { unfold getSocketStatus.
    destruct (ws s) as [[| | |]|]; destruct (isConnecting s);
      split; intros H; try discriminate; auto;
      destruct H as [H|[H1 H2]]; discriminate. }
  split.
  - intros s' thrown H. simpl in H.
    destruct (ws s); [|discriminate]. inversion H; subst. reflexivity.
  - intros instruments cid tok h tr errs Hrun Hc.
    apply Hni.
    eapply run_connects; [|exact Hrun|exact Hc].
    intros _. split; reflexivity.
Qed.

Lemma getSocketStatus_cases_witness :
  getSocketStatus (on_close (loaded [reliance])) = not_initialized
  /\ getSocketStatus (module_state [reliance] (Some "client") (Some "token") [])
     = not_initialized.
Proof.
  split.
  - apply (proj1 (proj2 (proj2 (proj2 (proj2
             (getSocketStatus_cases (loaded [reliance]))))))
            (on_close (with_ws (Some CLOSED) (loaded [reliance]))) None).
    reflexivity.
  - apply (proj2 (proj2 (proj2 (proj2 (proj2
             (getSocketStatus_cases
                (module_state [reliance] (Some "client") (Some "token") []))))))
            [reliance] (Some "client") (Some "token") [] [] []);
      reflexivity.
Defined.

(** C8, as stated, fails: after a connect attempt whose transport has
    closed, with the reconnect timeout pending, the status is
    "not_initialized", not "closed". *)
Lemma status_after_close_not_initialized :
  (option_map
     (fun r => (getSocketStatus (fst r), connects (fst r), timers (fst r)))
     (run (module_state [reliance] (Some "client") (Some "token") [])
          [CallInit; WsClose])
   = Some (not_initialized, 1%nat, [0%nat]))
  /\ ~ (forall tr s errs,
           run (module_state [reliance] (Some "client") (Some "token") []) tr
           = Some (s, errs) ->
           (getSocketStatus s = not_initialized <-> connects s = 0%nat)).
Proof.
  split.
  - reflexivity.
  - intros H.
    destruct (run (module_state [reliance] (Some "client") (Some "token") [])
                  [CallInit; WsClose]) as [[s errs]|] eqn:E;
      [|vm_compute in E; discriminate].
    pose proof (proj1 (H _ _ _ E)) as Hs.
    vm_compute in E. inversion E; subst.
    specialize (Hs eq_refl). discriminate Hs.
Qed.

(* ================================================================== *)
(** * Malformed instruments                                            *)
(* ================================================================== *)

(** An instrument is rejected when its security id or its exchange
    segment is [undefined] or empty. *)
Lemma invalid_instrument_iff (inst : DhanInstrument) :
  invalid_instrument inst = true
  <-> (securityId inst = None \/ securityId inst = Some EmptyString)
      \/ (exchange inst = None \/ exchange inst = Some EmptyString).
Proof.
  unfold invalid_instrument.
  destruct (securityId inst) as [[|c1 r1]|], (exchange inst) as [[|c2 r2]|];
    simpl; split; intros H; try reflexivity; try discriminate; auto;
    destruct H as [[H|H]|[H|H]]; discriminate.
Qed.

Lemma validateInstruments_invalid (l : list DhanInstrument) :
  (exists inst, In inst l /\ invalid_instrument inst = true) ->
  validateInstruments l = Some "Invalid Dhan instrument mapping".
Proof.
  intros (inst & Hin & Hbad). unfold validateInstruments.
  assert (Hf : In inst (filter invalid_instrument l)).
  { apply filter_In. split; assumption. }
  destruct (filter invalid_instrument l); [destruct Hf | reflexivity].
Qed.

Lemma validateInstruments_valid (l : list DhanInstrument) :
  (forall inst, In inst l -> invalid_instrument inst = false) ->
  validateInstruments l = None.
Proof.
  intros H. unfold validateInstruments.
  destruct (filter invalid_instrument l) as [|x r] eqn:E; [reflexivity|].
  assert (Hx : In x (filter invalid_instrument l)) by (rewrite E; now left).
  apply filter_In in Hx. destruct Hx as [Hin Hbad].
  rewrite (H x Hin) in Hbad. discriminate.
Qed.

(** With a malformed list, no event makes the module send anything,
    and the list stays as it is. *)
Lemma step_sent_invalid s e s' thrown :
  validateInstruments (STOCK_INSTRUMENTS s) <> None ->
  step s e = Some (s', thrown) ->
  sent s' = sent s /\ STOCK_INSTRUMENTS s' = STOCK_INSTRUMENTS s.
Proof.
  intros Hbad H.
  destruct e; simpl in H.
  - unfold initDhanSocket, connectWebSocket in H.
    repeat break_match; inversion H; subst; split; reflexivity.
  - inversion H; subst. unfold closeSocket, clearTimeout.
    repeat break_match; split; reflexivity.
  - inversion H; subst.
    destruct (subscribeToTicks_frame s c id0)
      as (_ & _ & _ & _ & _ & _ & -> & _ & ->).
    split; reflexivity.
  - inversion H; subst. split; reflexivity.
  - destruct (ws s) as [[| | |]|]; try discriminate.
    unfold on_open, subscribeToStockCodes in H. simpl in H.
    destruct (isMarketOpen now); simpl in H.
    + destruct (validateInstruments (STOCK_INSTRUMENTS s));
        [|now contradiction Hbad].
      inversion H; subst. split; reflexivity.
    + inversion H; subst. split; reflexivity.
  - destruct (ws s) as [[| | |]|]; try discriminate;
      inversion H; subst;
      destruct (handleMessage_frame s data)
        as (_ & _ & _ & _ & _ & _ & -> & _ & ->);
      split; reflexivity.
  - destruct (ws s); [|discriminate]. inversion H; subst. split; reflexivity.
  - destruct (ws s) as [[| | |]|]; try discriminate;
      inversion H; subst; split; reflexivity.
  - destruct (ws s); [|discriminate]. inversion H; subst. split; reflexivity.
  - destruct (existsb (Nat.eqb handle) (timers s)); [|discriminate].
    unfold reconnect_callback, connectWebSocket in H.
    repeat break_match; inversion H; subst; split; reflexivity.
Qed.

Lemma run_sent_invalid tr :
  forall s s' errs,
    validateInstruments (STOCK_INSTRUMENTS s) <> None ->
    run s tr = Some (s', errs) ->
    sent s' = sent s.
Proof.
  induction tr as [|e tr IH]; intros s s' errs Hbad H; simpl in H.
  - inversion H; subst. reflexivity.
  - destruct (step s e) as [[s1 thrown]|] eqn:E; [|discriminate].
    destruct (run s1 tr) as [[s2 errs2]|] eqn:E2; [|discriminate].
    inversion H; subst.
    destruct (step_sent_invalid s e s1 thrown Hbad E) as [Hs Hi].
    rewrite <- Hs. eapply IH; [|exact E2]. rewrite Hi. exact Hbad.
Qed.

(** C9, as the code has it. With an instrument that lacks its security
    id or its exchange segment in the list, loading the module (which
    builds the lookup tables) raises no instrument error; the error is
    raised by the subscription on an open transport while the market is
    open, before anything is sent; when the market is closed the
    subscription returns without raising and without sending; and no
    run of the module ever sends a message. *)
Theorem invalid_instruments_guard :
  forall s : State,
    (exists inst, In inst (STOCK_INSTRUMENTS s) /\ invalid_instrument inst = true) ->
    (forall cid tok h isBuildTime,
        snd (load_module (STOCK_INSTRUMENTS s) cid tok h isBuildTime)
        <> Some "Invalid Dhan instrument mapping")
    /\ (forall now,
           isMarketOpen now = true -> ws s = Some OPEN ->
           subscribeToStockCodes s now
           = (s, Some "Invalid Dhan instrument mapping"))
    /\ (forall now,
           isMarketOpen now = false ->
           subscribeToStockCodes s now = (s, None))
    /\ (forall tr s' errs, run s tr = Some (s', errs) -> sent s' = sent s).
Proof.
  intros s Hex.
  pose proof (validateInstruments_invalid _ Hex) as Hval.
  split; [|split; [|split]].
  - intros cid tok h b. unfold load_module, initDhanSocket, connectWebSocket.
    simpl. destruct b; simpl; [discriminate|].
    unfold validateEnv. simpl.
    destruct (negb (Js.truthy_str cid) || negb (Js.truthy_str tok)); simpl;
      discriminate.
  - intros now Hopen Hws. unfold subscribeToStockCodes.
    rewrite Hopen, Hws, Hval. reflexivity.
  - intros now Hclosed. unfold subscribeToStockCodes.
    rewrite Hclosed. reflexivity.
  - intros tr s' errs Hrun. eapply run_sent_invalid; [|exact Hrun].
    rewrite Hval. discriminate.
Qed.

Lemma invalid_instruments_guard_witness :
  subscribeToStockCodes (with_ws (Some OPEN) (loaded [reliance; no_segment])) t_0915
  = (with_ws (Some OPEN) (loaded [reliance; no_segment]),
     Some "Invalid Dhan instrument mapping")
  /\ subscribeToStockCodes (with_ws (Some OPEN) (loaded [reliance; no_segment])) t_0914
     = (with_ws (Some OPEN) (loaded [reliance; no_segment]), None).
Proof.
  assert (Hex : exists inst,
             In inst (STOCK_INSTRUMENTS
                        (with_ws (Some OPEN) (loaded [reliance; no_segment])))
             /\ invalid_instrument inst = true).
  { exists no_segment. split; [right; left; reflexivity | reflexivity]. }
  split.
  - apply (proj1 (proj2 (invalid_instruments_guard _ Hex))); reflexivity.
  - apply (proj1 (proj2 (proj2 (invalid_instruments_guard _ Hex)))); reflexivity.
Defined.

(** C9, as stated, fails: with an instrument lacking its exchange
    segment, the module loads and connects without any error, and when
    the transport opens while the market is closed, still none is
    raised. *)
Lemma invalid_instruments_not_raised_at_load :
  (validateInstruments [reliance; no_segment]
   = Some "Invalid Dhan instrument mapping"
   /\ snd (load_module [reliance; no_segment] (Some "client") (Some "token")
                       [open_stream] false) = None
   /\ option_map (fun r => (snd r, sent (fst r)))
                 (run (loaded [reliance; no_segment]) [WsOpen t_0914])
      = Some ([], []))
  /\ ~ (forall instruments cid tok h,
           (exists inst, In inst instruments /\ invalid_instrument inst = true) ->
           snd (load_module instruments cid tok h false)
           = Some "Invalid Dhan instrument mapping")
  /\ ~ (forall s now,
           (exists inst, In inst (STOCK_INSTRUMENTS s)
                         /\ invalid_instrument inst = true) ->
           ws s = Some OPEN ->
           snd (subscribeToStockCodes s now)
           = Some "Invalid Dhan instrument mapping").
Proof.
  assert (Hex : exists inst, In inst [reliance; no_segment]
                             /\ invalid_instrument inst = true).
  { exists no_segment. split; [right; left; reflexivity | reflexivity]. }
  split; [|split].
  - repeat split.
  - intros H.
    specialize (H [reliance; no_segment] (Some "client") (Some "token")
                  [open_stream] Hex).
    vm_compute in H. discriminate H.
  - intros H.
    specialize (H (with_ws (Some OPEN) (loaded [reliance; no_segment])) t_0914
                  Hex eq_refl).
    vm_compute in H. discriminate H.
Qed.

(* ================================================================== *)
(** * Reconnecting with back-off                                       *)
(* ================================================================== *)

Lemma backoff_S k :
  backoff (S k) = Js.Math_min (backoff k * 1.5)%float 60000%float.
Proof. reflexivity. Qed.

(** From the eighth delay on the cap is reached, and stays. *)
Lemma backoff_capped k : backoff (7 + k) = 60000%float.
Proof.
  induction k as [|k IH].
  - vm_compute. reflexivity.
  - rewrite Nat.add_succ_r, backoff_S, IH. vm_compute. reflexivity.
Qed.

Lemma spec_delay_S k :
  spec_delay (S k) = Qmin (spec_delay k * (3 # 2)) 60000.
Proof. reflexivity. Qed.

Lemma spec_delay_capped k : spec_delay (7 + k) = 60000%Q.
Proof.
  induction k as [|k IH].
  - vm_compute. reflexivity.
  - rewrite Nat.add_succ_r, spec_delay_S, IH. vm_compute. reflexivity.
Qed.

(** Every delay the code computes is the exact rational the
    specification's rule gives: no product is rounded. *)
Lemma backoff_exact k :
  exists q, Js.to_Q (backoff k) = Some q /\ (q == spec_delay k)%Q.
Proof.
  destruct (le_lt_dec 7 k) as [Hge|Hlt].
  - replace k with (7 + (k - 7))%nat by lia.
    rewrite backoff_capped, spec_delay_capped.
    eexists. split; [vm_compute; reflexivity|]. vm_compute. reflexivity.
  - do 7 (destruct k as [|k];
          [eexists; split; [vm_compute; reflexivity|]; vm_compute; reflexivity|]).
    lia.
Qed.

Lemma loop_inv_frame k s s' :
  ws s' = ws s -> isConnecting s' = isConnecting s ->
  reconnectDelay s' = reconnectDelay s -> timers s' = timers s ->
  loop_inv k s -> loop_inv k s'.
Proof.
  intros Hw Hc Hd Ht. unfold loop_inv, has_ws.
  rewrite Hw, Hc, Hd, Ht. exact (fun H => H).
Qed.

(** One such event keeps the loop in step with [expected_delays]. *)
Lemma step_loop k s e s' thrown :
  loop_inv k s ->
  not_lifecycle_call e = true ->
  step s e = Some (s', thrown) ->
  exists k',
    loop_inv k' s'
    /\ forall tr,
        scheduled s' ++ expected_delays k' tr
        = scheduled s ++ expected_delays k (e :: tr).
Proof.
  intros Hinv He H.
  destruct e; try discriminate He; simpl in H.
  - (* subscribeToTicks *)
    exists k. inversion H; subst.
    destruct (subscribeToTicks_frame s c id0)
      as (F1 & F2 & F3 & _ & F5 & F6 & _).
    split; [exact (loop_inv_frame k _ _ F1 F2 F3 F5 Hinv)|].
    intros tr. rewrite F6. reflexivity.
  - (* unsubscribe *)
    exists k. inversion H; subst.
    split; [exact Hinv|]. intros tr. reflexivity.
  - (* open *)
    destruct (ws s) as [[| | |]|] eqn:Ews; try discriminate.
    exists 0%nat.
    unfold on_open, subscribeToStockCodes in H. simpl in H.
    destruct Hinv as [(_ & Ht & _)|[(Hw & _)|(Hw & _)]]; try congruence.
    assert (Hs' : has_ws s' = true /\ timers s' = timers s
                  /\ reconnectDelay s' = 5000%float
                  /\ scheduled s' = scheduled s).
    { repeat break_match; inversion H; subst; repeat split. }
    destruct Hs' as (H1 & H2 & H3 & H4).
    split.
    + left. rewrite H1, H2, H3, Ht. repeat split.
    + intros tr. rewrite H4. reflexivity.
  - (* message *)
    exists k.
    assert (Hs' : s' = handleMessage s data).
    { destruct (ws s) as [[| | |]|]; try discriminate; inversion H; reflexivity. }
    subst s'.
    destruct (handleMessage_frame s data)
      as (F1 & F2 & F3 & _ & F5 & F6 & _).
    split; [exact (loop_inv_frame k _ _ F1 F2 F3 F5 Hinv)|].
    intros tr. rewrite F6. reflexivity.
  - (* error *)
    exists k. destruct (ws s) eqn:Ews; [|discriminate].
    inversion H; subst. split; [exact Hinv|]. intros tr. reflexivity.
  - (* closing *)
    exists k.
    destruct Hinv as [(_ & Ht & Hd)|[(Hw & _)|(Hw & _)]];
      try (rewrite Hw in H; discriminate).
    destruct (ws s) as [[| | |]|]; try discriminate; inversion H; subst;
      (split; [left; repeat split; assumption | intros tr; reflexivity]).
  - (* close *)
    exists (S k).
    destruct Hinv as [(_ & Ht & Hd)|[(Hw & _)|(Hw & _)]];
      try (rewrite Hw in H; discriminate).
    destruct (ws s); [|discriminate]. inversion H; subst.
    split.
    + right. left. simpl. rewrite Ht. simpl.
      repeat split; eauto.
    + intros tr. simpl. rewrite Hd, <- app_assoc. reflexivity.
  - (* timeout *)
    destruct (existsb (Nat.eqb handle) (timers s)) eqn:Ex; [|discriminate].
    destruct Hinv as [(_ & Ht & _)|[(Hw & Hc & (h0 & Ht) & (j & -> & Hd))|(_ & Ht)]];
      try (rewrite Ht in Ex; discriminate).
    rewrite Ht in Ex. simpl in Ex. rewrite orb_false_r in Ex.
    apply Nat.eqb_eq in Ex. subst h0.
    exists (S j).
    unfold reconnect_callback, connectWebSocket, clearTimeout in H.
    simpl in H. unfold has_ws in H. simpl in H.
    rewrite Hc, Hw, Ht, Hd in H. simpl in H.
    rewrite Nat.eqb_refl in H. simpl in H.
    unfold validateEnv in H. simpl in H.
    destruct (negb (Js.truthy_str (clientId s))
              || negb (Js.truthy_str (accessToken s)));
      inversion H; subst; simpl.
    + split; [right; right; split; [exact Hw | reflexivity]|].
      intros tr. reflexivity.
    + split; [left; repeat split|].
      intros tr. reflexivity.
Qed.

Lemma run_loop tr :
  forall k s s' errs,
    loop_inv k s ->
    forallb not_lifecycle_call tr = true ->
    run s tr = Some (s', errs) ->
    scheduled s' = scheduled s ++ expected_delays k tr.
Proof.
  induction tr as [|e tr IH]; intros k s s' errs Hinv Hev H; simpl in H.
  - inversion H; subst. simpl. rewrite app_nil_r. reflexivity.
  - simpl in Hev. apply andb_true_iff in Hev. destruct Hev as [He Hev].
    destruct (step s e) as [[s1 thrown]|] eqn:E; [|discriminate].
    destruct (run s1 tr) as [[s2 errs2]|] eqn:E2; [|discriminate].
    inversion H; subst.
    destruct (step_loop k s e s1 thrown Hinv He E) as (k' & Hinv' & Heq).
    rewrite (IH k' s1 s' errs2 Hinv' Hev E2). apply Heq.
Qed.

(** Whatever the state, the open handler puts the delay back to
    5000. *)
Lemma open_resets_delay s now s' thrown :
  step s (WsOpen now) = Some (s', thrown) ->
  reconnectDelay s' = 5000%float /\ scheduled s' = scheduled s /\ has_ws s' = true.
Proof.
  intros H. simpl in H.
  destruct (ws s) as [[| | |]|]; try discriminate.
  unfold on_open, subscribeToStockCodes in H. simpl in H.
  repeat break_match; inversion H; subst; repeat split.
Qed.

(** The close handler schedules the delay as it stands. *)
Lemma close_schedules_delay s s' thrown :
  step s WsClose = Some (s', thrown) ->
  scheduled s' = scheduled s ++ [reconnectDelay s].
Proof.
  intros H. simpl in H.
  destruct (ws s); [|discriminate]. inversion H; subst. reflexivity.
Qed.




(* ================================================================== *)
(** * Further properties: the decoder                                  *)
(* ================================================================== *)

Lemma byte_val_range b : 0 <= byte_val b < 256.
Proof.
  unfold byte_val. pose proof (Byte.to_N_bounded b). lia.
Qed.

Lemma byte_val_byte_of n : byte_val (byte_of n) = n mod 256.
Proof.
  unfold byte_val, byte_of.
  pose proof (Z.mod_pos_bound n 256 ltac:(lia)) as Hr.
  destruct (Byte.of_N (Z.to_N (n mod 256))) as [b|] eqn:E.
  - apply Byte.to_of_N in E. rewrite E. lia.
  - apply Byte.of_N_None_iff in E. lia.
Qed.

Lemma le32_value n :
  0 <= n < 2 ^ 32 ->
  byte_val (byte_of n) + byte_val (byte_of (n / 2 ^ 8)) * 2 ^ 8
  + byte_val (byte_of (n / 2 ^ 16)) * 2 ^ 16
  + byte_val (byte_of (n / 2 ^ 24)) * 2 ^ 24 = n.
Proof.
  intros H. rewrite !byte_val_byte_of.
  change (2 ^ 8) with 256. change (2 ^ 16) with 65536.
  change (2 ^ 24) with 16777216. change (2 ^ 32) with 4294967296 in H.
  Z.to_euclidean_division_equations. lia.
Qed.

Lemma readUInt32LE_range buf off n :
  readUInt32LE buf off = Some n -> 0 <= n < 2 ^ 32.
Proof.
  unfold readUInt32LE. intros H.
  repeat break_match; try discriminate. inversion H; subst.
  change (2 ^ 8) with 256. change (2 ^ 16) with 65536.
  change (2 ^ 24) with 16777216. change (2 ^ 32) with 4294967296.
  pose proof (byte_val_range b). pose proof (byte_val_range b0).
  pose proof (byte_val_range b1). pose proof (byte_val_range b2). lia.
Qed.

Lemma parseBinaryTick_fields buf t :
  parseBinaryTick buf = Some t ->
  (16 <= List.length buf)%nat
  /\ 0 <= Parsed.messageType t < 256
  /\ 0 <= Parsed.securityId t < 2 ^ 32
  /\ 0 <= Parsed.timestamp t < 2 ^ 32.
Proof.
  unfold parseBinaryTick. intros H.
  destruct (List.length buf <? 16)%nat eqn:E; [discriminate|].
  apply Nat.ltb_ge in E.
  destruct (readUInt8 buf 0) as [mt|] eqn:E0; [|discriminate].
  destruct (readUInt32LE buf 4) as [sid|] eqn:E1; [|discriminate].
  destruct (readFloatLE buf 8) as [pr|] eqn:E2; [|discriminate].
  destruct (readUInt32LE buf 12) as [ts|] eqn:E3; [|discriminate].
  inversion H; subst. simpl.
  split; [exact E|]. split; [|split].
  - unfold readUInt8 in E0. destruct (nth_error buf 0); [|discriminate].
    inversion E0; subst. apply byte_val_range.
  - eapply readUInt32LE_range; exact E1.
  - eapply readUInt32LE_range; exact E3.
Qed.

(** X1. [parseBinaryTick] returns a record exactly for the buffers of
    16 bytes or more, and the record's message type is a byte and its
    security id and timestamp are unsigned 32-bit values. *)
Theorem parseBinaryTick_domain :
  forall buf : Buffer,
    ((exists t, parseBinaryTick buf = Some t) <-> (16 <= List.length buf)%nat)
    /\ (forall t, parseBinaryTick buf = Some t ->
                  0 <= Parsed.messageType t < 256
                  /\ 0 <= Parsed.securityId t < 2 ^ 32
                  /\ 0 <= Parsed.timestamp t < 2 ^ 32).
Proof.
  intros buf. split.
  - split.
    + intros [t Ht]. exact (proj1 (parseBinaryTick_fields buf t Ht)).
    + apply parseBinaryTick_long.
  - intros t Ht. exact (proj2 (parseBinaryTick_fields buf t Ht)).
Qed.

Lemma parseBinaryTick_domain_witness :
  exists t, parseBinaryTick (example_frame Byte.x00 Byte.x00 Byte.x00) = Some t.
Proof.
  apply (proj2 (proj1 (parseBinaryTick_domain
                         (example_frame Byte.x00 Byte.x00 Byte.x00)))).
  simpl. lia.
Defined.

(** X2. Decoding inverts the frame layout: a frame laid out from a
    response code, a security id, a binary32 price pattern and a time,
    each word below 2^32, decodes to exactly these, whatever the three
    skipped bytes are and whatever follows the sixteenth byte. *)
Theorem parseBinaryTick_frame :
  forall (code b1 b2 b3 : Byte.byte) (sid w ts : Z) (rest : list Byte.byte),
    0 <= sid < 2 ^ 32 ->
    0 <= w < 2 ^ 32 ->
    0 <= ts < 2 ^ 32 ->
    parseBinaryTick (frame code b1 b2 b3 sid w ts rest)
    = Some {| Parsed.messageType := byte_val code;
              Parsed.securityId := sid;
              Parsed.price := Js.float_of_binary32 w;
              Parsed.timestamp := ts |}.
Proof.
  intros code b1 b2 b3 sid w ts rest Hs Hw Ht.
  set (buf := frame code b1 b2 b3 sid w ts rest).
  assert (L : (List.length buf <? 16)%nat = false) by reflexivity.
  assert (E0 : readUInt8 buf 0 = Some (byte_val code)) by reflexivity.
  assert (E1 : readUInt32LE buf 4
               = Some (byte_val (byte_of sid)
                       + byte_val (byte_of (sid / 2 ^ 8)) * 2 ^ 8
                       + byte_val (byte_of (sid / 2 ^ 16)) * 2 ^ 16
                       + byte_val (byte_of (sid / 2 ^ 24)) * 2 ^ 24))
    by reflexivity.
  assert (E2 : readUInt32LE buf 8
               = Some (byte_val (byte_of w)
                       + byte_val (byte_of (w / 2 ^ 8)) * 2 ^ 8
                       + byte_val (byte_of (w / 2 ^ 16)) * 2 ^ 16
                       + byte_val (byte_of (w / 2 ^ 24)) * 2 ^ 24))
    by reflexivity.
  assert (E3 : readUInt32LE buf 12
               = Some (byte_val (byte_of ts)
                       + byte_val (byte_of (ts / 2 ^ 8)) * 2 ^ 8
                       + byte_val (byte_of (ts / 2 ^ 16)) * 2 ^ 16
                       + byte_val (byte_of (ts / 2 ^ 24)) * 2 ^ 24))
    by reflexivity.
  rewrite (le32_value sid Hs) in E1. rewrite (le32_value w Hw) in E2.
  rewrite (le32_value ts Ht) in E3.
  unfold parseBinaryTick, readFloatLE. rewrite L, E0, E1, E2, E3.
  reflexivity.
Qed.

Lemma parseBinaryTick_frame_witness :
  parseBinaryTick (frame Byte.x06 Byte.x10 Byte.x00 Byte.x01
                         11536 0x45198800 1700000000 [Byte.xff])
  = Some {| Parsed.messageType := 6;
            Parsed.securityId := 11536;
            Parsed.price := 2456.5%float;
            Parsed.timestamp := 1700000000 |}.
Proof.
  assert (H1 : 0 <= 11536 < 2 ^ 32) by (simpl; lia).
  assert (H2 : 0 <= 0x45198800 < 2 ^ 32) by (simpl; lia).
  assert (H3 : 0 <= 1700000000 < 2 ^ 32) by (simpl; lia).
  rewrite (parseBinaryTick_frame Byte.x06 Byte.x10 Byte.x00 Byte.x01
             11536 0x45198800 1700000000 [Byte.xff] H1 H2 H3).
  vm_compute. reflexivity.
Defined.

(* ================================================================== *)
(** * Further properties: the tick store                               *)
(* ================================================================== *)

Section JsMapMore.
Context {K V : Type}.
Variable eqb : K -> K -> bool.
Hypothesis eqb_eq : forall a b, eqb a b = true <-> a = b.

Lemma keys_set_present (m : @JsMap.t K V) k v :
  In k (JsMap.keys m) -> JsMap.keys (JsMap.set eqb m k v) = JsMap.keys m.
Proof.
  induction m as [|[k0 v0] r IH]; simpl; intros H.
  - destruct H.
  - destruct (eqb k k0) eqn:E; simpl.
    + reflexivity.
    + f_equal. apply IH. destruct H as [H|H]; [|exact H].
      subst k0. rewrite (proj2 (eqb_eq k k) eq_refl) in E. discriminate.
Qed.

Lemma keys_set_absent (m : @JsMap.t K V) k v :
  ~ In k (JsMap.keys m) -> JsMap.keys (JsMap.set eqb m k v) = JsMap.keys m ++ [k].
Proof.
  induction m as [|[k0 v0] r IH]; simpl; intros H.
  - reflexivity.
  - destruct (eqb k k0) eqn:E; simpl.
    + apply eqb_eq in E. subst k0. exfalso. apply H. now left.
    + f_equal. apply IH. intros Hr. apply H. now right.
Qed.

Lemma in_set (m : @JsMap.t K V) k v k' v' :
  In (k', v') (JsMap.set eqb m k v) -> (k', v') = (k, v) \/ In (k', v') m.
Proof.
  induction m as [|[k0 v0] r IH]; simpl; intros H.
  - destruct H as [H|[]]. left. now symmetry.
  - destruct (eqb k k0) eqn:E; simpl in H.
    + apply eqb_eq in E. subst k0.
      destruct H as [H|H]; [left; now symmetry | right; now right].
    + destruct H as [H|H]; [right; now left|].
      destruct (IH H) as [Hk|Hr]; [now left | right; now right].
Qed.

Lemma get_in_keys (m : @JsMap.t K V) k v :
  JsMap.get eqb m k = Some v -> In k (JsMap.keys m).
Proof.
  induction m as [|[k0 v0] r IH]; simpl; intros H.
  - discriminate.
  - destruct (eqb k k0) eqn:E.
    + apply eqb_eq in E. now left.
    + right. now apply IH.
Qed.

Lemma delete_absent (m : @JsMap.t K V) k :
  ~ In k (JsMap.keys m) -> JsMap.delete eqb m k = m.
Proof.
  induction m as [|[k0 v0] r IH]; simpl; intros H.
  - reflexivity.
  - destruct (eqb k k0) eqn:E.
    + apply eqb_eq in E. subst k0. exfalso. apply H. now left.
    + f_equal. apply IH. intros Hr. apply H. now right.
Qed.

Lemma get_delete_other (m : @JsMap.t K V) k k' :
  k' <> k -> JsMap.get eqb (JsMap.delete eqb m k) k' = JsMap.get eqb m k'.
Proof.
  intros Hne. induction m as [|[k0 v0] r IH]; simpl.
  - reflexivity.
  - destruct (eqb k k0) eqn:E; simpl.
    + apply eqb_eq in E. subst k0.
      destruct (eqb k' k) eqn:E'; [|reflexivity].
      apply eqb_eq in E'. contradiction.
    + rewrite IH. reflexivity.
Qed.

Lemma not_in_keys_delete (m : @JsMap.t K V) k :
  NoDup (JsMap.keys m) -> ~ In k (JsMap.keys (JsMap.delete eqb m k)).
Proof.
  induction m as [|[k0 v0] r IH]; simpl; intros H.
  - intros [].
  - inversion H as [|? ? Hn Hr]; subst.
    destruct (eqb k k0) eqn:E; simpl.
    + apply eqb_eq in E. subst k0. exact Hn.
    + intros [Hk|Hk].
      * subst k0. rewrite (proj2 (eqb_eq k k) eq_refl) in E. discriminate.
      * exact (IH Hr Hk).
Qed.
End JsMapMore.

Lemma broadcastTickData_store s t :
  tickDataStore (broadcastTickData s t) = tickDataStore s
  /\ SECURITY_ID_TO_SYMBOL (broadcastTickData s t) = SECURITY_ID_TO_SYMBOL s.
Proof.
  unfold broadcastTickData.
  destruct (fold_left (deliver (TickMessage t)) (sseClients s) (streams s, []))
    as [h toRemove].
  split; reflexivity.
Qed.

Lemma handleMessage_store s buf t :
  parseBinaryTick buf = Some t ->
  tickDataStore (handleMessage s (BinaryData buf))
  = JsMap.set Z.eqb (tickDataStore s) (Parsed.securityId t)
              (tick_record (SECURITY_ID_TO_SYMBOL s) t).
Proof.
  intros H. unfold handleMessage. rewrite H.
  match goal with
  | |- tickDataStore (broadcastTickData ?s1 ?t1) = _ =>
      rewrite (proj1 (broadcastTickData_store s1 t1))
  end.
  reflexivity.
Qed.

Lemma handleMessage_table s data :
  SECURITY_ID_TO_SYMBOL (handleMessage s data) = SECURITY_ID_TO_SYMBOL s.
Proof.
  unfold handleMessage.
  destruct data as [buf|text]; [|reflexivity].
  destruct (parseBinaryTick buf) as [t|]; [|reflexivity].
  match goal with
  | |- SECURITY_ID_TO_SYMBOL (broadcastTickData ?s1 ?t1) = _ =>
      rewrite (proj2 (broadcastTickData_store s1 t1))
  end.
  reflexivity.
Qed.

(** X3. After a frame that decodes, the store returns under the
    frame's security id the record built from it (with the symbol the
    table resolves, or the placeholder), the records of all other ids
    are as before, and for a non-zero id [getTickData] returns that
    record. *)
Theorem handleMessage_upsert :
  forall (s : State) (buf : Buffer) (t : Parsed.t),
    parseBinaryTick buf = Some t ->
    let s' := handleMessage s (BinaryData buf) in
    let sid := Parsed.securityId t in
    let r := tick_record (SECURITY_ID_TO_SYMBOL s) t in
    JsMap.get Z.eqb (tickDataStore s') sid = Some r
    /\ (forall k, k <> sid ->
                  JsMap.get Z.eqb (tickDataStore s') k
                  = JsMap.get Z.eqb (tickDataStore s) k)
    /\ (sid <> 0 -> getTickData s' (Some sid) = OneTick (Some r)).
Proof.
  intros s buf t Hp s' sid r.
  assert (Hst : tickDataStore s' = JsMap.set Z.eqb (tickDataStore s) sid r)
    by (apply handleMessage_store; exact Hp).
  assert (Hget : JsMap.get Z.eqb (tickDataStore s') sid = Some r).
  { rewrite Hst. apply (get_set_same Z.eqb Z.eqb_eq). }
  split; [exact Hget|]. split.
  - intros k Hk. rewrite Hst, (get_set Z.eqb Z.eqb_eq).
    destruct (k =? sid) eqn:E; [|reflexivity].
    apply Z.eqb_eq in E. contradiction.
  - intros Hnz. rewrite getTickData_nonzero by exact Hnz. f_equal. exact Hget.
Qed.

Lemma handleMessage_upsert_witness :
  JsMap.get Z.eqb
    (tickDataStore
       (handleMessage (loaded [reliance])
                      (BinaryData (example_frame Byte.x00 Byte.x00 Byte.x00))))
    2885
  = Some example_tick.
Proof.
  assert (Hp : parseBinaryTick (example_frame Byte.x00 Byte.x00 Byte.x00)
               = Some {| Parsed.messageType := 2;
                         Parsed.securityId := 2885;
                         Parsed.price := 2456.5%float;
                         Parsed.timestamp := 1700000000 |})
    by (vm_compute; reflexivity).
  exact (proj1 (handleMessage_upsert (loaded [reliance]) _ _ Hp)).
Defined.

(** X4. Last write wins: of two frames for the same security id
    handled one after the other, the store keeps the record of the
    second, and it holds the same ids, in the same order, as after the
    first. *)
Theorem handleMessage_last_write_wins :
  forall (s : State) (buf1 buf2 : Buffer) (t1 t2 : Parsed.t),
    parseBinaryTick buf1 = Some t1 ->
    parseBinaryTick buf2 = Some t2 ->
    Parsed.securityId t1 = Parsed.securityId t2 ->
    let s1 := handleMessage s (BinaryData buf1) in
    let s2 := handleMessage s1 (BinaryData buf2) in
    JsMap.get Z.eqb (tickDataStore s2) (Parsed.securityId t2)
    = Some (tick_record (SECURITY_ID_TO_SYMBOL s) t2)
    /\ JsMap.keys (tickDataStore s2) = JsMap.keys (tickDataStore s1).
Proof.
  intros s buf1 buf2 t1 t2 H1 H2 Hid s1 s2.
  assert (Ht : SECURITY_ID_TO_SYMBOL s1 = SECURITY_ID_TO_SYMBOL s)
    by apply handleMessage_table.
  split.
  - rewrite <- Ht. subst s2. rewrite (handleMessage_store s1 buf2 t2 H2).
    apply (get_set_same Z.eqb Z.eqb_eq).
  - subst s2. rewrite (handleMessage_store s1 buf2 t2 H2).
    apply (keys_set_present Z.eqb Z.eqb_eq).
    rewrite <- Hid.
    eapply (get_in_keys Z.eqb Z.eqb_eq).
    subst s1. rewrite (handleMessage_store s buf1 t1 H1).
    apply (get_set_same Z.eqb Z.eqb_eq).
Qed.

Lemma handleMessage_last_write_wins_witness :
  JsMap.keys
    (tickDataStore
       (handleMessage
          (handleMessage (loaded [reliance])
             (BinaryData (frame Byte.x02 Byte.x00 Byte.x00 Byte.x00
                                2885 0x45198800 1700000000 [])))
          (BinaryData (frame Byte.x06 Byte.x00 Byte.x00 Byte.x00
                             2885 0x3F800000 1700000001 []))))
  = [2885].
Proof.
  assert (H1 : parseBinaryTick (frame Byte.x02 Byte.x00 Byte.x00 Byte.x00
                                      2885 0x45198800 1700000000 [])
               = Some {| Parsed.messageType := 2; Parsed.securityId := 2885;
                         Parsed.price := 2456.5%float;
                         Parsed.timestamp := 1700000000 |})
    by (vm_compute; reflexivity).
  assert (H2 : parseBinaryTick (frame Byte.x06 Byte.x00 Byte.x00 Byte.x00
                                      2885 0x3F800000 1700000001 [])
               = Some {| Parsed.messageType := 6; Parsed.securityId := 2885;
                         Parsed.price := 1%float;
                         Parsed.timestamp := 1700000001 |})
    by (vm_compute; reflexivity).
  rewrite (proj2 (handleMessage_last_write_wins (loaded [reliance]) _ _ _ _
                    H1 H2 eq_refl)).
  vm_compute. reflexivity.
Defined.

Lemma subscribeToTicks_store s c id :
  tickDataStore (subscribeToTicks s c id) = tickDataStore s
  /\ SECURITY_ID_TO_SYMBOL (subscribeToTicks s c id) = SECURITY_ID_TO_SYMBOL s.
Proof.
  unfold subscribeToTicks.
  destruct (0 <? _)%nat; [|split; reflexivity].
  match goal with
  | |- context [enqueue ?h ?c ?m] => destruct (enqueue h c m)
  end; split; reflexivity.
Qed.

Lemma step_table s e s' thrown :
  step s e = Some (s', thrown) ->
  SECURITY_ID_TO_SYMBOL s' = SECURITY_ID_TO_SYMBOL s.
Proof.
  intros H. destruct e; simpl in H.
  - unfold initDhanSocket, connectWebSocket in H.
    repeat break_match; inversion H; subst; reflexivity.
  - inversion H; subst. unfold closeSocket, clearTimeout.
    repeat break_match; reflexivity.
  - inversion H; subst. apply subscribeToTicks_store.
  - inversion H; subst. reflexivity.
  - unfold on_open, subscribeToStockCodes in H.
    repeat break_match; inversion H; subst; reflexivity.
  - repeat break_match; inversion H; subst; apply handleMessage_table.
  - repeat break_match; inversion H; subst; reflexivity.
  - repeat break_match; inversion H; subst; reflexivity.
  - unfold on_close, setTimeout in H.
    repeat break_match; inversion H; subst; reflexivity.
  - unfold reconnect_callback, connectWebSocket, clearTimeout in H.
    repeat break_match; inversion H; subst; reflexivity.
Qed.

Lemma handleMessage_store_ok s data :
  store_ok (SECURITY_ID_TO_SYMBOL s) (tickDataStore s) ->
  store_ok (SECURITY_ID_TO_SYMBOL s) (tickDataStore (handleMessage s data)).
Proof.
  intros [Hnd Hrec].
  destruct data as [buf|text]; [|split; assumption].
  destruct (parseBinaryTick buf) as [t|] eqn:Hp.
  - rewrite (handleMessage_store s buf t Hp).
    destruct (parseBinaryTick_fields buf t Hp) as (_ & Hm & Hs & Ht).
    split.
    + apply (nodup_set Z.eqb Z.eqb_eq). exact Hnd.
    + intros k r Hin. apply (in_set Z.eqb Z.eqb_eq) in Hin.
      destruct Hin as [Heq|Hin]; [|exact (Hrec k r Hin)].
      inversion Heq; subst. simpl. repeat split; try apply Hm; try apply Hs;
        try apply Ht.
  - unfold handleMessage. rewrite Hp. split; assumption.
Qed.

Lemma step_store_ok s e s' thrown :
  store_ok (SECURITY_ID_TO_SYMBOL s) (tickDataStore s) ->
  step s e = Some (s', thrown) ->
  store_ok (SECURITY_ID_TO_SYMBOL s') (tickDataStore s').
Proof.
  intros Hok H.
  rewrite (step_table s e s' thrown H).
  destruct e; simpl in H.
  - unfold initDhanSocket, connectWebSocket in H.
    repeat break_match; inversion H; subst; exact Hok.
  - inversion H; subst. unfold closeSocket, clearTimeout.
    repeat break_match; exact Hok.
  - inversion H; subst. rewrite (proj1 (subscribeToTicks_store s c id0)).
    exact Hok.
  - inversion H; subst. exact Hok.
  - unfold on_open, subscribeToStockCodes in H.
    repeat break_match; inversion H; subst; exact Hok.
  - repeat break_match; inversion H; subst;
      apply handleMessage_store_ok; exact Hok.
  - repeat break_match; inversion H; subst; exact Hok.
  - repeat break_match; inversion H; subst; exact Hok.
  - unfold on_close, setTimeout in H.
    repeat break_match; inversion H; subst; exact Hok.
  - unfold reconnect_callback, connectWebSocket, clearTimeout in H.
    repeat break_match; inversion H; subst; exact Hok.
Qed.

Lemma run_store_ok tr :
  forall s s' errs,
    store_ok (SECURITY_ID_TO_SYMBOL s) (tickDataStore s) ->
    run s tr = Some (s', errs) ->
    store_ok (SECURITY_ID_TO_SYMBOL s') (tickDataStore s').
Proof.
  induction tr as [|e tr IH]; intros s s' errs Hok H; simpl in H.
  - inversion H; subst. exact Hok.
  - destruct (step s e) as [[s1 thrown]|] eqn:E; [|discriminate].
    destruct (run s1 tr) as [[s2 errs2]|] eqn:E2; [|discriminate].
    inversion H; subst.
    eapply IH; [|exact E2]. eapply step_store_ok; eassumption.
Qed.

(** X5. In every state the module reaches, the store holds one record
    per security id, and each record sits under the id it carries, has
    an unsigned 32-bit id and timestamp, a byte as message type, the
    symbol the table resolves for its id, and the label of its message
    type. *)
Theorem store_invariant :
  forall instruments cid tok h tr s errs,
    run (module_state instruments cid tok h) tr = Some (s, errs) ->
    store_ok (build_SECURITY_ID_TO_SYMBOL instruments) (tickDataStore s).
Proof.
  intros instruments cid tok h tr s errs Hrun.
  assert (Hok : store_ok (SECURITY_ID_TO_SYMBOL s) (tickDataStore s)).
  { eapply run_store_ok; [|exact Hrun].
    split; [constructor | intros k r []]. }
  assert (Ht : forall tr0 s0 s1 errs0,
             run s0 tr0 = Some (s1, errs0) ->
             SECURITY_ID_TO_SYMBOL s1 = SECURITY_ID_TO_SYMBOL s0).
  { induction tr0 as [|e tr0 IH]; intros s0 s1 errs0 H0; simpl in H0.
    - inversion H0; subst. reflexivity.
    - destruct (step s0 e) as [[s2 thrown]|] eqn:E; [|discriminate].
      destruct (run s2 tr0) as [[s3 errs3]|] eqn:E2; [|discriminate].
      inversion H0; subst.
      rewrite (IH _ _ _ E2). eapply step_table. exact E. }
  rewrite (Ht _ _ _ _ Hrun) in Hok. exact Hok.
Qed.

Lemma store_invariant_witness :
  exists s errs,
    run (module_state [reliance] (Some "client") (Some "token") [open_stream])
        [CallInit; WsOpen t_0914;
         WsMessage (BinaryData (example_frame Byte.x00 Byte.x00 Byte.x00))]
    = Some (s, errs)
    /\ store_ok (build_SECURITY_ID_TO_SYMBOL [reliance]) (tickDataStore s).
Proof.
  eexists. eexists. split.
  - vm_compute. reflexivity.
  - apply (store_invariant [reliance] (Some "client") (Some "token") [open_stream]
             [CallInit; WsOpen t_0914;
              WsMessage (BinaryData (example_frame Byte.x00 Byte.x00 Byte.x00))]
             _ []).
    vm_compute. reflexivity.
Defined.

(* ================================================================== *)
(** * Further properties: the fan-out                                  *)
(* ================================================================== *)

Lemma enqueue_accepted h c m :
  accepts h c = true ->
  exists ctl,
    nth_error h c = Some ctl /\ closed ctl = false
    /\ enqueue h c m
       = Some (replace_nth h c {| closed := false; queue := queue ctl ++ [m] |}).
Proof.
  unfold accepts, enqueue. intros H.
  destruct (nth_error h c) as [ctl|]; [|discriminate].
  destruct (closed ctl) eqn:E; [discriminate|].
  exists ctl. repeat split. exact E.
Qed.

Lemma enqueue_refused h c m : accepts h c = false -> enqueue h c m = None.
Proof.
  unfold accepts, enqueue. intros H.
  destruct (nth_error h c) as [ctl|]; [|reflexivity].
  destruct (closed ctl); [reflexivity|discriminate].
Qed.

Lemma enqueue_keeps_accepts h c m h' c' :
  enqueue h c m = Some h' -> accepts h' c' = accepts h c'.
Proof.
  intros H.
  assert (Ha : accepts h c = true).
  { destruct (accepts h c) eqn:E; [reflexivity|].
    rewrite (enqueue_refused h c m E) in H. discriminate. }
  destruct (enqueue_accepted h c m Ha) as (ctl & Hn & Hc & He).
  rewrite He in H. injection H as <-.
  unfold accepts.
  destruct (Nat.eq_dec c c') as [->|Hne].
  - rewrite (nth_error_replace_same h c' _ _ Hn), Hn, Hc. reflexivity.
  - rewrite nth_error_replace_other by exact Hne. reflexivity.
Qed.

(** The ids the [forEach] collects are those of the clients whose
    stream refuses the message, in the registry's order. *)
Lemma deliver_fold_removed m entries :
  forall h toRemove,
    snd (fold_left (deliver m) entries (h, toRemove))
    = toRemove
      ++ map fst (filter (fun e => negb (accepts h (controller (snd e)))) entries).
Proof.
  induction entries as [|e entries IH]; intros h toRemove; simpl.
  - rewrite app_nil_r. reflexivity.
  - destruct (accepts h (controller (snd e))) eqn:Ha; simpl.
    + destruct (enqueue_accepted h _ m Ha) as (ctl & _ & _ & He).
      rewrite He, IH. f_equal. f_equal. apply filter_ext. intros x.
      rewrite (enqueue_keeps_accepts h _ m _ _ He). reflexivity.
    + rewrite (enqueue_refused h _ m Ha), IH, <- app_assoc. reflexivity.
Qed.

Lemma filter_all {A} (f : A -> bool) (l : list A) :
  (forall x, In x l -> f x = true) -> filter f l = l.
Proof.
  induction l as [|a l IH]; simpl; intros H.
  - reflexivity.
  - rewrite (H a (or_introl eq_refl)). f_equal. apply IH.
    intros x Hx. apply H. now right.
Qed.

Lemma filter_twice {A} (f g : A -> bool) (l : list A) :
  filter f (filter g l) = filter (fun x => g x && f x) l.
Proof.
  induction l as [|a l IH]; simpl.
  - reflexivity.
  - destruct (g a); simpl; [destruct (f a)|]; rewrite IH; reflexivity.
Qed.

Lemma delete_as_filter (m : ClientMap) k :
  NoDup (JsMap.keys m) ->
  JsMap.delete String.eqb m k
  = filter (fun e => negb (String.eqb k (fst e))) m.
Proof.
  induction m as [|[k0 v0] r IH]; simpl; intros H.
  - reflexivity.
  - inversion H as [|? ? Hn Hr]; subst.
    destruct (String.eqb k k0) eqn:E; simpl.
    + apply String.eqb_eq in E. subst k0.
      symmetry. apply filter_all. intros [k1 v1] Hin. simpl.
      destruct (String.eqb k k1) eqn:E1; [|reflexivity].
      apply String.eqb_eq in E1. subst k1.
      exfalso. apply Hn. unfold JsMap.keys.
      change k with (fst (k, v1)). apply in_map. exact Hin.
    + f_equal. apply IH. exact Hr.
Qed.

Lemma fold_delete_as_filter (ids : list string) :
  forall m : ClientMap,
    NoDup (JsMap.keys m) ->
    fold_left (fun m id => JsMap.delete String.eqb m id) ids m
    = filter (fun e => negb (existsb (String.eqb (fst e)) ids)) m.
Proof.
  induction ids as [|i ids IH]; intros m H; simpl.
  - symmetry. apply filter_all. reflexivity.
  - rewrite IH by (apply (nodup_delete String.eqb); exact H).
    rewrite (delete_as_filter m i H), filter_twice.
    apply filter_ext. intros e.
    rewrite negb_orb, (String.eqb_sym i (fst e)). reflexivity.
Qed.

Lemma nodup_keys_inj (m : ClientMap) e e' :
  NoDup (JsMap.keys m) -> In e m -> In e' m -> fst e = fst e' -> e = e'.
Proof.
  induction m as [|a r IH]; simpl; intros H He He' Hk.
  - destruct He.
  - inversion H as [|? ? Hn Hr]; subst.
    destruct He as [He|He], He' as [He'|He'].
    + congruence.
    + subst a. exfalso. apply Hn. rewrite Hk. apply in_map. exact He'.
    + subst a. exfalso. apply Hn. rewrite <- Hk. apply in_map. exact He.
    + exact (IH Hr He He' Hk).
Qed.

(** X6. After [broadcastTickData] the registry holds exactly the
    clients whose stream accepted the message, in their former order:
    every client whose stream is closed or gone is removed in the same
    pass, and no other. *)
Theorem broadcastTickData_registry :
  forall (s : State) (t : TickData),
    NoDup (JsMap.keys (sseClients s)) ->
    sseClients (broadcastTickData s t)
    = filter (fun e => accepts (streams s) (controller (snd e))) (sseClients s).
Proof.
  intros s t Hnd. unfold broadcastTickData.
  pose proof (deliver_fold_removed (TickMessage t) (sseClients s) (streams s) [])
    as Hrem.
  destruct (fold_left (deliver (TickMessage t)) (sseClients s) (streams s, []))
    as [h toRemove].
  simpl in Hrem. subst toRemove. simpl.
  rewrite fold_delete_as_filter by exact Hnd.
  apply filter_ext_in. intros e He.
  set (bad := fun e0 : string * SSEClient =>
                negb (accepts (streams s) (controller (snd e0)))).
  destruct (accepts (streams s) (controller (snd e))) eqn:Ha.
  - apply negb_true_iff.
    destruct (existsb (String.eqb (fst e)) (map fst (filter bad (sseClients s))))
      eqn:Ex; [|reflexivity].
    apply existsb_exists in Ex. destruct Ex as (k & Hk & Heq).
    apply String.eqb_eq in Heq. subst k.
    apply in_map_iff in Hk. destruct Hk as (e' & Hfst & Hin').
    apply filter_In in Hin'. destruct Hin' as [Hin' Hbad].
    assert (e' = e) by (apply (nodup_keys_inj (sseClients s)); auto).
    subst e'. unfold bad in Hbad. rewrite Ha in Hbad. discriminate.
  - apply negb_false_iff. apply existsb_exists.
    exists (fst e). split; [|apply String.eqb_refl].
    apply in_map. apply filter_In. split; [exact He|].
    unfold bad. rewrite Ha. reflexivity.
Qed.

Lemma broadcastTickData_registry_witness :
  JsMap.keys (sseClients (broadcastTickData three_clients example_tick))
  = ["a1"; "b2"].
Proof.
  assert (H : NoDup (JsMap.keys (sseClients three_clients))).
  { apply (reachable_clients_nodup [reliance] (Some "client") (Some "token")
             [open_stream]
             [CallInit; CallSubscribeToTicks 0 "a1"; CallSubscribeToTicks 0 "b2";
              CallSubscribeToTicks 7 "c3"] three_clients []).
    vm_compute. reflexivity. }
  rewrite (broadcastTickData_registry three_clients example_tick H).
  vm_compute. reflexivity.
Defined.

Lemma deliver_fold_queue m entries :
  forall (h : Streams) toRemove c ctl,
    nth_error h c = Some ctl ->
    exists ctl',
      nth_error (fst (fold_left (deliver m) entries (h, toRemove))) c = Some ctl'
      /\ closed ctl' = closed ctl
      /\ queue ctl'
         = queue ctl
           ++ (if closed ctl then [] else repeat m (clients_of entries c)).
Proof.
  induction entries as [|e entries IH]; intros h toRemove c ctl Hc.
  - exists ctl. simpl. repeat split; [exact Hc|].
    destruct (closed ctl); rewrite app_nil_r; reflexivity.
  - simpl fold_left. unfold clients_of. simpl filter.
    destruct (Nat.eqb (controller (snd e)) c) eqn:Ec.
    + apply Nat.eqb_eq in Ec. rewrite Ec.
      destruct (closed ctl) eqn:Ecl.
      * assert (Hr : enqueue h c m = None).
        { apply enqueue_refused. unfold accepts. rewrite Hc, Ecl. reflexivity. }
        rewrite Hr.
        destruct (IH h (toRemove ++ [fst e]) c ctl Hc) as (ctl' & H1 & H2 & H3).
        exists ctl'. rewrite Ecl in *. auto.
      * assert (Ha : accepts h c = true).
        { unfold accepts. rewrite Hc, Ecl. reflexivity. }
        destruct (enqueue_accepted h c m Ha) as (ctl0 & Hn0 & _ & He).
        rewrite Hc in Hn0. injection Hn0 as <-. rewrite He.
        destruct (IH _ toRemove c _
                    (nth_error_replace_same h c
                       {| closed := false; queue := queue ctl ++ [m] |} ctl Hc))
          as (ctl' & H1 & H2 & H3).
        exists ctl'. simpl in H2, H3. split; [exact H1|]. split; [exact H2|].
        rewrite H3. unfold clients_of. simpl. rewrite <- app_assoc. reflexivity.
    + apply Nat.eqb_neq in Ec.
      destruct (enqueue h (controller (snd e)) m) as [h1|] eqn:He.
      * assert (Hc1 : nth_error h1 c = Some ctl).
        { assert (Ha : accepts h (controller (snd e)) = true).
          { destruct (accepts h (controller (snd e))) eqn:E; [reflexivity|].
            rewrite (enqueue_refused h _ m E) in He. discriminate. }
          destruct (enqueue_accepted h _ m Ha) as (ctl0 & _ & _ & He0).
          rewrite He0 in He. injection He as <-.
          rewrite nth_error_replace_other by exact Ec. exact Hc. }
        exact (IH h1 toRemove c ctl Hc1).
      * exact (IH h (toRemove ++ [fst e]) c ctl Hc).
Qed.

(** X7. [broadcastTickData] appends the tick message to a stream once
    for every registered client that writes to it, after what the
    stream had received, and leaves a closed stream as it was. *)
Theorem broadcastTickData_delivery :
  forall (s : State) (t : TickData) (c : nat) (ctl : Controller),
    nth_error (streams s) c = Some ctl ->
    exists ctl',
      nth_error (streams (broadcastTickData s t)) c = Some ctl'
      /\ closed ctl' = closed ctl
      /\ queue ctl'
         = queue ctl
           ++ (if closed ctl then []
               else repeat (TickMessage t) (clients_of (sseClients s) c)).
Proof.
  intros s t c ctl Hc. unfold broadcastTickData.
  pose proof (deliver_fold_queue (TickMessage t) (sseClients s) (streams s) []
                c ctl Hc) as H.
  destruct (fold_left (deliver (TickMessage t)) (sseClients s) (streams s, []))
    as [h toRemove].
  exact H.
Qed.

Lemma broadcastTickData_delivery_witness :
  exists ctl',
    nth_error (streams (broadcastTickData three_clients example_tick)) 0
    = Some ctl'
    /\ closed ctl' = false
    /\ queue ctl' = [TickMessage example_tick; TickMessage example_tick].
Proof.
  assert (H : nth_error (streams three_clients) 0 = Some open_stream)
    by reflexivity.
  exact (broadcastTickData_delivery three_clients example_tick 0 open_stream H).
Defined.

(** X8. Unsubscribing removes the client registered under the id and
    no other; unsubscribing twice is the same as once, and an id that
    is not registered leaves the registry as it was. *)
Theorem unsubscribe_idempotent :
  forall (s : State) (id : string),
    NoDup (JsMap.keys (sseClients s)) ->
    JsMap.get String.eqb (sseClients (unsubscribe id s)) id = None
    /\ unsubscribe id (unsubscribe id s) = unsubscribe id s
    /\ (forall id', id' <> id ->
                    JsMap.get String.eqb (sseClients (unsubscribe id s)) id'
                    = JsMap.get String.eqb (sseClients s) id')
    /\ (~ In id (JsMap.keys (sseClients s)) ->
        sseClients (unsubscribe id s) = sseClients s).
Proof.
  intros s id Hnd. unfold unsubscribe. simpl.
  split; [apply (get_delete_same String.eqb String.eqb_eq); exact Hnd|].
  split.
  - rewrite (delete_absent String.eqb String.eqb_eq
               (JsMap.delete String.eqb (sseClients s) id) id).
    + reflexivity.
    + apply (not_in_keys_delete String.eqb String.eqb_eq). exact Hnd.
  - split.
    + intros id' Hne. apply (get_delete_other String.eqb String.eqb_eq).
      exact Hne.
    + intros Habs. apply (delete_absent String.eqb String.eqb_eq). exact Habs.
Qed.

Lemma unsubscribe_idempotent_witness :
  unsubscribe "b2" (unsubscribe "b2" three_clients)
  = unsubscribe "b2" three_clients.
Proof.
  assert (H : NoDup (JsMap.keys (sseClients three_clients))).
  { apply (reachable_clients_nodup [reliance] (Some "client") (Some "token")
             [open_stream]
             [CallInit; CallSubscribeToTicks 0 "a1"; CallSubscribeToTicks 0 "b2";
              CallSubscribeToTicks 7 "c3"] three_clients []).
    vm_compute. reflexivity. }
  exact (proj1 (proj2 (unsubscribe_idempotent three_clients "b2" H))).
Defined.

(** X9. [subscribeToTicks] registers the stream under the given id and
    leaves the other clients as they are: a new id goes to the end of
    the registry, and an id already in use keeps its place with the
    earlier client replaced. *)
Theorem subscribeToTicks_registry :
  forall (s : State) (c : nat) (id : string),
    let s' := subscribeToTicks s c id in
    JsMap.get String.eqb (sseClients s') id = Some {| controller := c; id := id |}
    /\ (forall id', id' <> id ->
                    JsMap.get String.eqb (sseClients s') id'
                    = JsMap.get String.eqb (sseClients s) id')
    /\ (In id (JsMap.keys (sseClients s)) ->
        JsMap.keys (sseClients s') = JsMap.keys (sseClients s))
    /\ (~ In id (JsMap.keys (sseClients s)) ->
        JsMap.keys (sseClients s') = JsMap.keys (sseClients s) ++ [id]).
Proof.
  intros s c id s'. subst s'. rewrite subscribeToTicks_clients.
  split; [apply (get_set_same String.eqb String.eqb_eq)|].
  split.
  - intros id' Hne. rewrite (get_set String.eqb String.eqb_eq).
    destruct (String.eqb id' id) eqn:E; [|reflexivity].
    apply String.eqb_eq in E. contradiction.
  - split.
    + apply (keys_set_present String.eqb String.eqb_eq).
    + apply (keys_set_absent String.eqb String.eqb_eq).
Qed.

Lemma subscribeToTicks_registry_witness :
  JsMap.keys (sseClients (subscribeToTicks three_clients 0 "b2"))
  = JsMap.keys (sseClients three_clients)
  /\ JsMap.keys (sseClients (subscribeToTicks three_clients 0 "d4"))
     = JsMap.keys (sseClients three_clients) ++ ["d4"].
Proof.
  split.
  - apply (proj1 (proj2 (proj2 (subscribeToTicks_registry three_clients 0 "b2")))).
    vm_compute. right. left. reflexivity.
  - apply (proj2 (proj2 (proj2 (subscribeToTicks_registry three_clients 0 "d4")))).
    vm_compute. intros [H|[H|[H|[]]]]; discriminate H.
Defined.

(* ================================================================== *)
(** * Further properties: the subscription                             *)
(* ================================================================== *)

Lemma batch_loop_count fuel l i :
  (List.length l <= i + fuel * BATCH_SIZE)%nat ->
  let n := List.length (batch_loop fuel l i) in
  (List.length l - i <= n * BATCH_SIZE
   /\ n * BATCH_SIZE < List.length l - i + BATCH_SIZE)%nat.
Proof.
  revert i. induction fuel as [|fuel IH]; intros i H.
  - simpl in *. unfold BATCH_SIZE. lia.
  - rewrite batch_loop_step.
    destruct (i <? List.length l)%nat eqn:E.
    + apply Nat.ltb_lt in E.
      specialize (IH (i + BATCH_SIZE)%nat).
      simpl List.length. unfold BATCH_SIZE in *. simpl in IH. lia.
    + apply Nat.ltb_ge in E. simpl. unfold BATCH_SIZE. lia.
Qed.

Lemma subscription_messages_shape (l : list DhanInstrument) :
  exists reqs,
    subscription_messages l = reqs ++ [ModeRequest 16 1]
    /\ flat_map payload_instruments reqs
       = map (fun inst => {| ExchangeSegment := exchange inst;
                             SecurityId := securityId inst |}) l
    /\ (forall p, In p reqs ->
          exists batch,
            p = SubscribeRequest 15 (Z.of_nat (List.length batch))
                  (map (fun inst => {| ExchangeSegment := exchange inst;
                                       SecurityId := securityId inst |}) batch)
            /\ (0 < List.length batch <= 100)%nat)
    /\ (List.length l <= List.length reqs * 100
        /\ List.length reqs * 100 < List.length l + 100)%nat.
Proof.
  assert (Hfuel : (List.length l <= 0 + List.length l * BATCH_SIZE)%nat)
    by (unfold BATCH_SIZE; lia).
  exists (batch_loop (List.length l) l 0).
  split; [reflexivity|]. split; [|split].
  - rewrite (batch_loop_covers _ l 0 Hfuel). reflexivity.
  - intros p Hp. exact (batch_loop_sizes _ _ _ p Hp).
  - pose proof (batch_loop_count _ l 0 Hfuel) as Hc.
    unfold BATCH_SIZE in Hc. simpl in Hc. lia.
Qed.

(** X10. For any well-formed instrument list, with the market open and
    the transport open, the subscription throws nothing and sends
    subscribe requests and then one mode request (code 16, mode 1); the
    requests carry the pair of exchange segment and security id of
    every instrument once, in the list's order, between 1 and 100 per
    request with request code 15 and the count equal to the length,
    and there are as many requests as hundreds begun (none for the
    empty list). *)
Theorem subscribeToStockCodes_batches :
  forall (s : State) (now : Z),
    validateInstruments (STOCK_INSTRUMENTS s) = None ->
    isMarketOpen now = true ->
    ws s = Some OPEN ->
    exists reqs,
      snd (subscribeToStockCodes s now) = None
      /\ sent (fst (subscribeToStockCodes s now))
         = sent s ++ reqs ++ [ModeRequest 16 1]
      /\ flat_map payload_instruments reqs
         = map (fun inst => {| ExchangeSegment := exchange inst;
                               SecurityId := securityId inst |})
               (STOCK_INSTRUMENTS s)
      /\ (forall p, In p reqs ->
            exists batch,
              p = SubscribeRequest 15 (Z.of_nat (List.length batch))
                    (map (fun inst => {| ExchangeSegment := exchange inst;
                                         SecurityId := securityId inst |}) batch)
              /\ (0 < List.length batch <= 100)%nat)
      /\ (List.length (STOCK_INSTRUMENTS s) <= List.length reqs * 100
          /\ List.length reqs * 100 < List.length (STOCK_INSTRUMENTS s) + 100)%nat
      /\ STOCK_INSTRUMENTS (fst (subscribeToStockCodes s now))
         = STOCK_INSTRUMENTS s.
Proof.
  intros s now Hval Hopen Hws.
  destruct (subscription_messages_shape (STOCK_INSTRUMENTS s))
    as (reqs & Hm & Hf & Hp & Hn).
  exists reqs.
  assert (Hrun : subscribeToStockCodes s now
                 = (with_sent (sent s ++ subscription_messages
                                           (STOCK_INSTRUMENTS s)) s, None)).
  { unfold subscribeToStockCodes. rewrite Hopen, Hws, Hval. reflexivity. }
  rewrite Hrun. simpl. rewrite Hm.
  split; [reflexivity|]. split; [reflexivity|]. split; [exact Hf|].
  split; [exact Hp|]. split; [exact Hn | reflexivity].
Qed.

Lemma subscribeToStockCodes_batches_witness :
  exists reqs,
    sent (fst (subscribeToStockCodes open220 t_0915))
    = sent open220 ++ reqs ++ [ModeRequest 16 1]
    /\ flat_map payload_instruments reqs
       = map (fun inst => {| ExchangeSegment := exchange inst;
                             SecurityId := securityId inst |}) instruments220.
Proof.
  assert (H1 : validateInstruments (STOCK_INSTRUMENTS open220) = None)
    by (vm_compute; reflexivity).
  assert (H2 : isMarketOpen t_0915 = true) by reflexivity.
  assert (H3 : ws open220 = Some OPEN) by reflexivity.
  destruct (subscribeToStockCodes_batches open220 t_0915 H1 H2 H3)
    as (reqs & _ & Hr & Hf & _).
  exists reqs. split; [exact Hr | exact Hf].
Defined.

Lemma app_longer {A} (l m : list A) : m <> [] -> l ++ m <> l.
Proof.
  intros Hm H. apply (f_equal (@List.length A)) in H.
  rewrite length_app in H. destruct m; [now contradiction Hm|].
  simpl in H. lia.
Qed.

(** X11. The subscription is gated three times: it sends something
    exactly when the market is open, the transport is open and the
    list is well-formed, and it throws exactly when the market is
    open, the transport is open and the list is not well-formed;
    otherwise it returns with nothing sent. *)
Theorem subscribeToStockCodes_gates :
  forall (s : State) (now : Z),
    (sent (fst (subscribeToStockCodes s now)) <> sent s
     <-> isMarketOpen now = true /\ ws s = Some OPEN
         /\ validateInstruments (STOCK_INSTRUMENTS s) = None)
    /\ (snd (subscribeToStockCodes s now) <> None
        <-> isMarketOpen now = true /\ ws s = Some OPEN
            /\ validateInstruments (STOCK_INSTRUMENTS s) <> None)
    /\ (snd (subscribeToStockCodes s now) <> None ->
        fst (subscribeToStockCodes s now) = s).
Proof.
  intros s now. unfold subscribeToStockCodes.
  destruct (isMarketOpen now); simpl.
  2:{ split; [|split]; try split; intros H; try (now contradiction H);
      destruct H as [H _]; discriminate. }
  destruct (ws s) as [[| | |]|];
    try (split; [|split]; try split; intros H; try (now contradiction H);
         destruct H as (_ & H & _); discriminate).
  destruct (validateInstruments (STOCK_INSTRUMENTS s)) as [err|] eqn:Hv; simpl.
  - split; [|split].
    + split; intros H; [now contradiction H|].
      destruct H as (_ & _ & H). discriminate.
    + split; intros H; [repeat split; discriminate | discriminate].
    + reflexivity.
  - split; [|split].
    + split; intros H; [repeat split|].
      apply app_longer. unfold subscription_messages.
      destruct (batch_loop _ _ _); discriminate.
    + split; intros H; [now contradiction H|].
      destruct H as (_ & _ & H). now contradiction H.
    + intros H. now contradiction H.
Qed.

Lemma subscribeToStockCodes_gates_witness :
  sent (fst (subscribeToStockCodes open220 t_0915)) <> sent open220.
Proof.
  apply (proj2 (proj1 (subscribeToStockCodes_gates open220 t_0915))).
  split; [reflexivity|]. split; [reflexivity|]. vm_compute. reflexivity.
Defined.

(** X12. [validateInstruments] returns exactly when every instrument
    has a non-empty security id and a non-empty exchange segment, and
    throws otherwise, always with the same message. *)
Theorem validateInstruments_iff :
  forall l : list DhanInstrument,
    (validateInstruments l = None
     <-> forall inst, In inst l ->
                      Js.truthy_str (securityId inst) = true
                      /\ Js.truthy_str (exchange inst) = true)
    /\ (validateInstruments l <> None ->
        validateInstruments l = Some "Invalid Dhan instrument mapping").
Proof.
  intros l. split.
  - split.
    + intros H inst Hin.
      destruct (invalid_instrument inst) eqn:E.
      * assert (Hex : exists i, In i l /\ invalid_instrument i = true)
          by (exists inst; auto).
        rewrite (validateInstruments_invalid l Hex) in H. discriminate.
      * unfold invalid_instrument in E. apply orb_false_iff in E.
        destruct E as [E1 E2].
        apply negb_false_iff in E1. apply negb_false_iff in E2. auto.
    + intros H. apply validateInstruments_valid. intros inst Hin.
      destruct (H inst Hin) as [H1 H2].
      unfold invalid_instrument. rewrite H1, H2. reflexivity.
  - unfold validateInstruments.
    destruct (0 <? _)%nat; [reflexivity|]. intros H. now contradiction H.
Qed.

Lemma validateInstruments_iff_witness :
  validateInstruments [reliance; tcs] = None.
Proof.
  apply (proj2 (proj1 (validateInstruments_iff [reliance; tcs]))).
  intros inst [<-|[<-|[]]]; split; reflexivity.
Defined.

(** X13. The older revision of [isMarketOpen] adds 300 minutes where
    330 are due: it answers true exactly from 09:45 to 16:00 at
    UTC+5:30, so it disagrees with the later revision from 09:15 to
    09:44 and from 15:31 to 16:00. *)
Theorem Rev1_isMarketOpen_window :
  forall now : Z,
    (Rev1.isMarketOpen now = true
     <-> 9 * 60 + 45 <= ist_minute_of_day now <= 16 * 60)
    /\ (Rev1.isMarketOpen now <> isMarketOpen now
        <-> 9 * 60 + 15 <= ist_minute_of_day now < 9 * 60 + 45
            \/ 15 * 60 + 30 < ist_minute_of_day now <= 16 * 60).
Proof.
  intros now.
  assert (H1 : Rev1.isMarketOpen now = true
               <-> 9 * 60 + 45 <= ist_minute_of_day now <= 16 * 60).
  { unfold Rev1.isMarketOpen, marketOpen, marketClose.
    replace ((Js.getUTCHours now + 5) * 60 + Js.getUTCMinutes now)
      with (Js.getUTCHours now * 60 + Js.getUTCMinutes now + 300) by lia.
    rewrite utc_minute_of_day, ist_minute_shift.
    rewrite andb_true_iff, !Z.leb_le.
    generalize (now / 60000). intros m.
    Z.to_euclidean_division_equations. lia. }
  assert (H2 : isMarketOpen now = true
               <-> 9 * 60 + 15 <= ist_minute_of_day now <= 15 * 60 + 30).
  { unfold isMarketOpen, marketOpen, marketClose.
    rewrite utc_minute_of_day, ist_minute_shift.
    rewrite andb_true_iff, !Z.leb_le.
    generalize (now / 60000). intros m.
    Z.to_euclidean_division_equations. lia. }
  split; [exact H1|].
  destruct (Rev1.isMarketOpen now), (isMarketOpen now); split; intros H;
    try (now contradiction H); try discriminate;
    try (exfalso;
         assert (A := proj1 H1); assert (B := proj1 H2);
         assert (C := proj2 H1); assert (D := proj2 H2);
         first [ specialize (A eq_refl) | idtac ];
         first [ specialize (B eq_refl) | idtac ];
         lia).
  - assert (A := proj1 H1 eq_refl).
    destruct (Z_le_gt_dec (ist_minute_of_day now) (15 * 60 + 30)) as [L|G].
    + assert (D := proj2 H2 ltac:(lia)). discriminate.
    + right. lia.
  - assert (B := proj1 H2 eq_refl).
    destruct (Z_le_gt_dec (9 * 60 + 45) (ist_minute_of_day now)) as [L|G].
    + assert (C := proj2 H1 ltac:(lia)). discriminate.
    + left. lia.
Qed.

Lemma Rev1_isMarketOpen_window_witness :
  Rev1.isMarketOpen (t_0915 + 30 * 60000) = true.
Proof.
  apply (proj2 (proj1 (Rev1_isMarketOpen_window (t_0915 + 30 * 60000)))).
  vm_compute. split; discriminate.
Defined.

(* ================================================================== *)
(** * Further properties: the life cycle                               *)
(* ================================================================== *)

Lemma delay_values_in_range d : In d delay_values -> delay_in_range d.
Proof.
  unfold delay_values. intros H.
  repeat (destruct H as [<-|H]; [split; vm_compute; reflexivity|]).
  destruct H.
Qed.

Lemma delay_values_closed d :
  In d delay_values ->
  In (Js.Math_min (d * 1.5)%float 60000%float) delay_values.
Proof.
  unfold delay_values. intros H.
  repeat (destruct H as [<-|H];
          [vm_compute; repeat (first [left; reflexivity | right])|]).
  destruct H.
Qed.

Lemma step_delay s e s' thrown :
  In (reconnectDelay s) delay_values ->
  Forall (fun d => In d delay_values) (scheduled s) ->
  step s e = Some (s', thrown) ->
  In (reconnectDelay s') delay_values
  /\ Forall (fun d => In d delay_values) (scheduled s').
Proof.
  intros Hd Hs H.
  assert (H5 : In 5000%float delay_values) by (left; reflexivity).
  destruct e; simpl in H.
  - unfold initDhanSocket, connectWebSocket in H.
    repeat break_match; inversion H; subst; split; assumption.
  - inversion H; subst. unfold closeSocket, clearTimeout.
    repeat break_match; split; assumption.
  - inversion H; subst.
    destruct (subscribeToTicks_frame s c id0) as (_ & _ & -> & _ & _ & -> & _).
    split; assumption.
  - inversion H; subst. split; assumption.
  - unfold on_open, subscribeToStockCodes in H.
    repeat break_match; inversion H; subst; split; assumption.
  - repeat break_match; inversion H; subst;
      destruct (handleMessage_frame s data) as (_ & _ & -> & _ & _ & -> & _);
      split; assumption.
  - repeat break_match; inversion H; subst; split; assumption.
  - repeat break_match; inversion H; subst; split; assumption.
  - destruct (ws s); [|discriminate]. inversion H; subst. simpl.
    split; [exact Hd|]. apply Forall_app. split; [exact Hs|].
    constructor; [exact Hd | constructor].
  - destruct (existsb (Nat.eqb handle) (timers s)); [|discriminate].
    pose proof (delay_values_closed _ Hd) as Hn.
    unfold reconnect_callback, connectWebSocket, clearTimeout in H.
    repeat break_match; inversion H; subst; split; assumption.
Qed.

Lemma run_delay tr :
  forall s s' errs,
    In (reconnectDelay s) delay_values ->
    Forall (fun d => In d delay_values) (scheduled s) ->
    run s tr = Some (s', errs) ->
    In (reconnectDelay s') delay_values
    /\ Forall (fun d => In d delay_values) (scheduled s').
Proof.
  induction tr as [|e tr IH]; intros s s' errs Hd Hs H; simpl in H.
  - inversion H; subst. split; assumption.
  - destruct (step s e) as [[s1 thrown]|] eqn:E; [|discriminate].
    destruct (run s1 tr) as [[s2 errs2]|] eqn:E2; [|discriminate].
    inversion H; subst.
    destruct (step_delay s e s1 thrown Hd Hs E) as [Hd1 Hs1].
    exact (IH s1 s' errs2 Hd1 Hs1 E2).
Qed.

(** X14. Whatever happens to the module, calls from outside included,
    the reconnect delay and every delay ever passed to [setTimeout] is
    one of 5000, 7500, 11250, 16875, 25312.5, 37968.75, 56953.125 and
    60000: never below 5000 and never above 60000. *)
Theorem reconnectDelay_bounded :
  forall instruments cid tok h tr s errs,
    run (module_state instruments cid tok h) tr = Some (s, errs) ->
    In (reconnectDelay s) delay_values
    /\ delay_in_range (reconnectDelay s)
    /\ Forall (fun d => In d delay_values /\ delay_in_range d) (scheduled s).
Proof.
  intros instruments cid tok h tr s errs Hrun.
  destruct (run_delay tr (module_state instruments cid tok h) s errs) as [Hd Hs].
  - left. reflexivity.
  - constructor.
  - exact Hrun.
  - split; [exact Hd|]. split; [exact (delay_values_in_range _ Hd)|].
    eapply Forall_impl; [|exact Hs].
    intros d Hin. split; [exact Hin | exact (delay_values_in_range _ Hin)].
Qed.

Lemma reconnectDelay_bounded_witness :
  exists s errs,
    run (module_state [reliance] (Some "client") (Some "token") [open_stream])
        [CallInit; WsClose; CallInit; WsClose; TimerFires 0; TimerFires 1;
         CallClose; CallInit; WsClose]
    = Some (s, errs)
    /\ scheduled s = [5000; 5000; 11250]%float
    /\ In (reconnectDelay s) delay_values.
Proof.
  eexists. eexists. split; [vm_compute; reflexivity|].
  split; [reflexivity|].
  apply (reconnectDelay_bounded [reliance] (Some "client") (Some "token")
           [open_stream]
           [CallInit; WsClose; CallInit; WsClose; TimerFires 0; TimerFires 1;
            CallClose; CallInit; WsClose] _ []).
  vm_compute. reflexivity.
Defined.

Lemma step_no_credentials s e s' thrown :
  validateEnv s <> None ->
  ws s = None -> isConnecting s = false ->
  step s e = Some (s', thrown) ->
  ws s' = None /\ isConnecting s' = false
  /\ connects s' = connects s /\ sent s' = sent s
  /\ clientId s' = clientId s /\ accessToken s' = accessToken s.
Proof.
  intros Hv Hw Hc H.
  destruct e; simpl in H; try (rewrite Hw in H; discriminate).
  - unfold initDhanSocket, connectWebSocket, has_ws in H.
    rewrite Hw, Hc in H. simpl in H.
    destruct (validateEnv s); [|now contradiction Hv].
    inversion H; subst. repeat split; assumption.
  - inversion H; subst. unfold closeSocket, clearTimeout.
    destruct (reconnectTimer s); simpl; rewrite Hw; simpl;
      repeat split; assumption.
  - inversion H; subst.
    destruct (subscribeToTicks_frame s c id0)
      as (-> & -> & _ & _ & _ & _ & -> & -> & _).
    unfold subscribeToTicks.
    destruct (0 <? _)%nat;
      [match goal with
       | |- context [enqueue ?h ?c ?m] => destruct (enqueue h c m)
       end|]; repeat split; assumption.
  - inversion H; subst. repeat split; assumption.
  - destruct (existsb (Nat.eqb handle) (timers s)); [|discriminate].
    unfold reconnect_callback, connectWebSocket, has_ws, clearTimeout in H.
    simpl in H. rewrite Hw, Hc in H. simpl in H.
    unfold validateEnv in H, Hv. simpl in H.
    destruct (negb (Js.truthy_str (clientId s))
              || negb (Js.truthy_str (accessToken s)));
      [|now contradiction Hv].
    inversion H; subst. repeat split; assumption.
Qed.

Lemma run_no_credentials tr :
  forall s s' errs,
    validateEnv s <> None ->
    ws s = None -> isConnecting s = false ->
    run s tr = Some (s', errs) ->
    ws s' = None /\ isConnecting s' = false
    /\ connects s' = connects s /\ sent s' = sent s
    /\ validateEnv s' <> None.
Proof.
  induction tr as [|e tr IH]; intros s s' errs Hv Hw Hc H; simpl in H.
  - inversion H; subst. repeat split; assumption.
  - destruct (step s e) as [[s1 thrown]|] eqn:E; [|discriminate].
    destruct (run s1 tr) as [[s2 errs2]|] eqn:E2; [|discriminate].
    inversion H; subst.
    destruct (step_no_credentials s e s1 thrown Hv Hw Hc E)
      as (Hw1 & Hc1 & Hn1 & Hs1 & Hi1 & Ht1).
    assert (Hv1 : validateEnv s1 <> None).
    { unfold validateEnv in *. rewrite Hi1, Ht1. exact Hv. }
    destruct (IH s1 s' errs2 Hv1 Hw1 Hc1 E2) as (A & B & C & D & F).
    repeat split; try assumption; congruence.
Qed.

(** X15. Without a client id or without an access token, no transport
    is ever created and nothing is ever sent: in every state the
    module reaches the status is "not_initialized", and a call of
    [initDhanSocket] throws and changes nothing. *)
Theorem no_credentials_no_transport :
  forall instruments cid tok h tr s errs,
    Js.truthy_str cid = false \/ Js.truthy_str tok = false ->
    run (module_state instruments cid tok h) tr = Some (s, errs) ->
    ws s = None /\ connects s = 0%nat /\ sent s = []
    /\ getSocketStatus s = not_initialized
    /\ initDhanSocket s
       = (s, Some "DHAN_CLIENT_ID and DHAN_ACCESS_TOKEN must be set").
Proof.
  intros instruments cid tok h tr s errs Hcred Hrun.
  assert (Hv : validateEnv (module_state instruments cid tok h) <> None).
  { unfold validateEnv. simpl.
    destruct Hcred as [-> | ->]; simpl; [|rewrite orb_true_r]; discriminate. }
  destruct (run_no_credentials tr _ s errs Hv eq_refl eq_refl Hrun)
    as (Hw & Hc & Hn & Hs & Hv').
  split; [exact Hw|]. split; [exact Hn|]. split; [exact Hs|].
  split.
  - unfold getSocketStatus. rewrite Hw, Hc. reflexivity.
  - unfold initDhanSocket, connectWebSocket, has_ws. rewrite Hw, Hc. simpl.
    unfold validateEnv in *.
    destruct (negb (Js.truthy_str (clientId s))
              || negb (Js.truthy_str (accessToken s)));
      [reflexivity | now contradiction Hv'].
Qed.

Lemma no_credentials_no_transport_witness :
  initDhanSocket no_token
  = (no_token, Some "DHAN_CLIENT_ID and DHAN_ACCESS_TOKEN must be set").
Proof.
  assert (Hc : Js.truthy_str (Some "client") = false \/ Js.truthy_str None = false)
    by (right; reflexivity).
  assert (Hr : run (module_state [reliance] (Some "client") None [open_stream]) []
               = Some (no_token, [])) by reflexivity.
  exact (proj2 (proj2 (proj2 (proj2
           (no_credentials_no_transport [reliance] (Some "client") None
              [open_stream] [] no_token [] Hc Hr))))).
Defined.

Lemma step_stopped s e s' thrown :
  ws s = None -> isConnecting s = false -> timers s = [] ->
  not_init_call e = true ->
  step s e = Some (s', thrown) ->
  ws s' = None /\ isConnecting s' = false /\ timers s' = []
  /\ connects s' = connects s /\ scheduled s' = scheduled s
  /\ sent s' = sent s.
Proof.
  intros Hw Hc Ht He H.
  destruct e; try discriminate He; simpl in H;
    try (rewrite Hw in H; discriminate).
  - inversion H; subst. unfold closeSocket, clearTimeout.
    destruct (reconnectTimer s); simpl; rewrite Hw, ?Ht; simpl;
      repeat split; assumption.
  - inversion H; subst.
    destruct (subscribeToTicks_frame s c id0)
      as (-> & -> & _ & _ & -> & -> & -> & -> & _).
    repeat split; assumption.
  - inversion H; subst. repeat split; assumption.
  - rewrite Ht in H. discriminate.
Qed.

Lemma run_stopped tr :
  forall s s' errs,
    ws s = None -> isConnecting s = false -> timers s = [] ->
    forallb not_init_call tr = true ->
    run s tr = Some (s', errs) ->
    ws s' = None /\ timers s' = []
    /\ connects s' = connects s /\ scheduled s' = scheduled s
    /\ sent s' = sent s.
Proof.
  induction tr as [|e tr IH]; intros s s' errs Hw Hc Ht Hev H; simpl in H.
  - inversion H; subst. repeat split; assumption.
  - simpl in Hev. apply andb_true_iff in Hev. destruct Hev as [He Hev].
    destruct (step s e) as [[s1 thrown]|] eqn:E; [|discriminate].
    destruct (run s1 tr) as [[s2 errs2]|] eqn:E2; [|discriminate].
    inversion H; subst.
    destruct (step_stopped s e s1 thrown Hw Hc Ht He E)
      as (Hw1 & Hc1 & Ht1 & Hn1 & Hs1 & Hx1).
    destruct (IH s1 s' errs2 Hw1 Hc1 Ht1 Hev E2) as (A & B & C & D & F).
    repeat split; try assumption; congruence.
Qed.

Lemma closeSocket_clears s :
  timer_tracked s -> timers (closeSocket s) = [].
Proof.
  unfold timer_tracked.
  destruct s as [ins cid tok w rt ic rd st cl tbl h tm sc sn cn].
  simpl. unfold closeSocket, clearTimeout. simpl.
  intros [Ht|(h0 & Ht & Hr)]; subst.
  - destruct rt, w; reflexivity.
  - simpl. rewrite Nat.eqb_refl. destruct w; reflexivity.
Qed.

(** X16. When at most one timeout is pending and [reconnectTimer]
    refers to it, [closeSocket] stops the module for good: no transport,
    no timeout, status "not_initialized"; a second [closeSocket]
    changes nothing; and until [initDhanSocket] is called again no
    transport is created, no timeout is scheduled and nothing is
    sent. *)
Theorem closeSocket_stops :
  forall s : State,
    timer_tracked s ->
    let s1 := closeSocket s in
    ws s1 = None /\ timers s1 = [] /\ reconnectTimer s1 = None
    /\ getSocketStatus s1 = not_initialized
    /\ closeSocket s1 = s1
    /\ (forall tr s' errs,
           forallb not_init_call tr = true ->
           run s1 tr = Some (s', errs) ->
           ws s' = None /\ timers s' = []
           /\ connects s' = connects s /\ scheduled s' = scheduled s
           /\ sent s' = sent s).
Proof.
  intros s Htr s1.
  assert (Hs1 : ws s1 = None /\ isConnecting s1 = false /\ timers s1 = []
                /\ reconnectTimer s1 = None /\ connects s1 = connects s
                /\ scheduled s1 = scheduled s /\ sent s1 = sent s
                /\ closeSocket s1 = s1).
  { subst s1. unfold timer_tracked in Htr.
    destruct s as [ins cid tok w rt ic rd st cl tbl h tm sc sn cn].
    simpl in Htr. unfold closeSocket, clearTimeout. simpl.
    destruct Htr as [Ht|(h0 & Ht & Hr)]; subst.
    - destruct rt, w; simpl; repeat split.
    - simpl. rewrite Nat.eqb_refl. destruct w; simpl; repeat split. }
  destruct Hs1 as (Hw & Hc & Ht & Hr & Hn & Hsch & Hsent & Hidem).
  split; [exact Hw|]. split; [exact Ht|]. split; [exact Hr|].
  split; [unfold getSocketStatus; rewrite Hw, Hc; reflexivity|].
  split; [exact Hidem|].
  intros tr s' errs Hev Hrun.
  destruct (run_stopped tr s1 s' errs Hw Hc Ht Hev Hrun) as (A & B & C & D & F).
  repeat split; congruence.
Qed.

Lemma closeSocket_stops_witness :
  getSocketStatus (closeSocket (on_close (loaded [reliance]))) = not_initialized
  /\ timers (closeSocket (on_close (loaded [reliance]))) = [].
Proof.
  assert (H : timer_tracked (on_close (loaded [reliance]))).
  { right. exists 0%nat. split; reflexivity. }
  split.
  - exact (proj1 (proj2 (proj2 (proj2
             (closeSocket_stops (on_close (loaded [reliance])) H))))).
  - exact (proj1 (proj2 (closeSocket_stops (on_close (loaded [reliance])) H))).
Defined.

Lemma loop_shape_frame s s' :
  ws s' = ws s -> isConnecting s' = isConnecting s ->
  timers s' = timers s -> reconnectTimer s' = reconnectTimer s ->
  loop_shape s -> loop_shape s'.
Proof.
  intros Hw Hc Ht Hr. unfold loop_shape, has_ws.
  rewrite Hw, Hc, Ht, Hr. exact (fun H => H).
Qed.

Lemma step_loop_shape s e s' thrown :
  loop_shape s ->
  not_lifecycle_call e = true ->
  step s e = Some (s', thrown) ->
  loop_shape s'.
Proof.
  intros Hinv He H.
  destruct e; try discriminate He; simpl in H.
  - inversion H; subst.
    destruct (subscribeToTicks_frame s c id0) as (F1 & F2 & _ & F4 & F5 & _).
    exact (loop_shape_frame _ _ F1 F2 F5 F4 Hinv).
  - inversion H; subst. exact Hinv.
  - destruct (ws s) as [[| | |]|] eqn:Ews; try discriminate.
    destruct Hinv as [(_ & Ht)|[(Hw & _)|(Hw & _)]]; try congruence.
    unfold on_open, subscribeToStockCodes in H. simpl in H.
    left. repeat break_match; inversion H; subst; split; assumption || reflexivity.
  - assert (Hs' : s' = handleMessage s data).
    { destruct (ws s) as [[| | |]|]; try discriminate; inversion H; reflexivity. }
    subst s'.
    destruct (handleMessage_frame s data) as (F1 & F2 & _ & F4 & F5 & _).
    exact (loop_shape_frame _ _ F1 F2 F5 F4 Hinv).
  - destruct (ws s) eqn:Ews; [|discriminate]. inversion H; subst. exact Hinv.
  - destruct Hinv as [(_ & Ht)|[(Hw & _)|(Hw & _)]];
      try (rewrite Hw in H; discriminate).
    destruct (ws s) as [[| | |]|]; try discriminate; inversion H; subst;
      left; split; [reflexivity | exact Ht | reflexivity | exact Ht].
  - destruct Hinv as [(_ & Ht)|[(Hw & _)|(Hw & _)]];
      try (rewrite Hw in H; discriminate).
    destruct (ws s); [|discriminate]. inversion H; subst.
    right. left. simpl. rewrite Ht. simpl. repeat split. eauto.
  - destruct (existsb (Nat.eqb handle) (timers s)) eqn:Ex; [|discriminate].
    destruct Hinv as [(_ & Ht)|[(Hw & Hc & h0 & Ht & Hr)|(_ & Ht)]];
      try (rewrite Ht in Ex; discriminate).
    rewrite Ht in Ex. simpl in Ex. rewrite orb_false_r in Ex.
    apply Nat.eqb_eq in Ex. subst h0.
    unfold reconnect_callback, connectWebSocket, clearTimeout in H.
    simpl in H. unfold has_ws in H. simpl in H.
    rewrite Hc, Hw, Ht in H. simpl in H.
    rewrite Nat.eqb_refl in H. simpl in H.
    unfold validateEnv in H. simpl in H.
    destruct (negb (Js.truthy_str (clientId s))
              || negb (Js.truthy_str (accessToken s)));
      inversion H; subst; simpl.
    + right. right. split; [exact Hw | reflexivity].
    + left. split; reflexivity.
Qed.

(** X17. Left to the transport's events, its own timeouts and the SSE
    calls, the module never has two timeouts pending and never one
    while it holds a transport; the pending one is the one
    [reconnectTimer] refers to, so [closeSocket] can cancel it. *)
Theorem reconnect_single_timer :
  forall (s : State) (tr : list Event) (s' : State) (errs : list string),
    has_ws s = true ->
    timers s = [] ->
    forallb not_lifecycle_call tr = true ->
    run s tr = Some (s', errs) ->
    timer_tracked s'
    /\ (has_ws s' = true -> timers s' = [])
    /\ timers (closeSocket s') = [].
Proof.
  intros s tr s' errs Hws Ht Hev Hrun.
  assert (Hshape : loop_shape s') .
  { revert s Hws Ht Hev Hrun.
    assert (G : forall tr0 s0 s1 errs0,
               loop_shape s0 -> forallb not_lifecycle_call tr0 = true ->
               run s0 tr0 = Some (s1, errs0) -> loop_shape s1).
    { induction tr0 as [|e tr0 IH]; intros s0 s1 errs0 H0 Hev0 Hr0;
        simpl in Hr0.
      - inversion Hr0; subst. exact H0.
      - simpl in Hev0. apply andb_true_iff in Hev0. destruct Hev0 as [He Hev0].
        destruct (step s0 e) as [[s2 thrown]|] eqn:E; [|discriminate].
        destruct (run s2 tr0) as [[s3 errs3]|] eqn:E2; [|discriminate].
        inversion Hr0; subst.
        eapply IH; [|exact Hev0|exact E2].
        eapply step_loop_shape; eassumption. }
    intros s Hws Ht Hev Hrun.
    eapply G; [|exact Hev|exact Hrun]. left. split; assumption. }
  assert (Htk : timer_tracked s').
  { destruct Hshape as [(_ & H0)|[(_ & _ & h & H1 & H2)|(_ & H0)]].
    - left. exact H0.
    - right. exists h. split; assumption.
    - left. exact H0. }
  split; [exact Htk|]. split.
  - intros Hh. destruct Hshape as [(_ & H0)|[(Hw & _)|(_ & H0)]];
      [exact H0| |exact H0].
    unfold has_ws in Hh. rewrite Hw in Hh. discriminate.
  - exact (closeSocket_clears s' Htk).
Qed.

Lemma reconnect_single_timer_witness :
  exists s errs,
    run (loaded [reliance]) reconnect_trace = Some (s, errs)
    /\ timer_tracked s.
Proof.
  assert (H1 : has_ws (loaded [reliance]) = true) by reflexivity.
  assert (H2 : timers (loaded [reliance]) = []) by reflexivity.
  assert (H3 : forallb not_lifecycle_call reconnect_trace = true) by reflexivity.
  destruct (run (loaded [reliance]) reconnect_trace) as [[s errs]|] eqn:E;
    [|vm_compute in E; discriminate].
  exists s, errs. split; [reflexivity|].
  exact (proj1 (reconnect_single_timer (loaded [reliance]) reconnect_trace
                  s errs H1 H2 H3 E)).
Defined.

(** X18. A transport is created only when none is held and none is
    being connected, and only by [initDhanSocket] or by a reconnect
    timeout; every other step, and either of the two while a transport
    is held or being connected, creates none. *)
Theorem transport_created_only_when_idle :
  forall (s : State) (e : Event) (s' : State) (thrown : Thrown),
    step s e = Some (s', thrown) ->
    connects s' = connects s
    \/ (connects s' = S (connects s)
        /\ ws s = None /\ isConnecting s = false
        /\ ws s' = Some CONNECTING /\ isConnecting s' = true
        /\ thrown = None
        /\ (e = CallInit \/ exists h, e = TimerFires h)).
Proof.
  intros s e s' thrown H.
  destruct e; simpl in H.
  - unfold initDhanSocket, connectWebSocket, has_ws in H.
    destruct (ws s) eqn:Ew; simpl in H.
    + inversion H; subst. left. reflexivity.
    + destruct (isConnecting s) eqn:Ec; simpl in H.
      * inversion H; subst. left. reflexivity.
      * destruct (validateEnv s); inversion H; subst; [left; reflexivity|].
        right. simpl. repeat split; auto.
  - inversion H; subst. left. unfold closeSocket, clearTimeout.
    repeat break_match; reflexivity.
  - inversion H; subst. left.
    destruct (subscribeToTicks_frame s c id0)
      as (_ & _ & _ & _ & _ & _ & _ & -> & _).
    reflexivity.
  - inversion H; subst. left. reflexivity.
  - left. unfold on_open, subscribeToStockCodes in H.
    repeat break_match; inversion H; subst; reflexivity.
  - left. repeat break_match; inversion H; subst;
      destruct (handleMessage_frame s data)
        as (_ & _ & _ & _ & _ & _ & _ & -> & _); reflexivity.
  - left. repeat break_match; inversion H; subst; reflexivity.
  - left. repeat break_match; inversion H; subst; reflexivity.
  - left. destruct (ws s); [|discriminate]. inversion H; subst. reflexivity.
  - destruct (existsb (Nat.eqb handle) (timers s)); [|discriminate].
    unfold reconnect_callback, connectWebSocket, has_ws, clearTimeout in H.
    simpl in H.
    destruct (ws s) eqn:Ew; simpl in H.
    + rewrite orb_true_r in H. inversion H; subst. left. reflexivity.
    + destruct (isConnecting s) eqn:Ec; simpl in H.
      * inversion H; subst. left. reflexivity.
      * unfold validateEnv in H. simpl in H.
        destruct (negb (Js.truthy_str (clientId s))
                  || negb (Js.truthy_str (accessToken s)));
          inversion H; subst; [left; reflexivity|].
        right. simpl. repeat split; eauto.
Qed.

Lemma transport_created_only_when_idle_witness :
  connects (fst (initDhanSocket (loaded [reliance])))
  = connects (loaded [reliance]).
Proof.
  assert (H : step (loaded [reliance]) CallInit
              = Some (initDhanSocket (loaded [reliance])))
    by reflexivity.
  destruct (initDhanSocket (loaded [reliance])) as [s' thrown] eqn:E.
  destruct (transport_created_only_when_idle (loaded [reliance]) CallInit
              s' thrown H) as [Hc|(_ & Hw & _)].
  - exact Hc.
  - vm_compute in Hw. discriminate Hw.
Defined.

(** X19. Every open of the transport puts the delay back to 5000 and
    makes the status "open"; with a well-formed list and the market
    open it sends the whole subscription again (the requests carrying
    every instrument's pair in order, then the mode request), so a
    reconnect subscribes anew; with the market closed it sends
    nothing. *)
Theorem open_subscribes :
  forall (s : State) (now : Z) (s' : State) (thrown : Thrown),
    step s (WsOpen now) = Some (s', thrown) ->
    reconnectDelay s' = 5000%float
    /\ isConnecting s' = false
    /\ getSocketStatus s' = open
    /\ (isMarketOpen now = true ->
        validateInstruments (STOCK_INSTRUMENTS s) = None ->
        thrown = None
        /\ exists reqs,
            sent s' = sent s ++ reqs ++ [ModeRequest 16 1]
            /\ flat_map payload_instruments reqs
               = map (fun inst => {| ExchangeSegment := exchange inst;
                                     SecurityId := securityId inst |})
                     (STOCK_INSTRUMENTS s))
    /\ (isMarketOpen now = false -> thrown = None /\ sent s' = sent s).
Proof.
  intros s now s' thrown H. simpl in H.
  destruct (ws s) as [[| | |]|]; try discriminate.
  unfold on_open, subscribeToStockCodes in H. simpl in H.
  destruct (isMarketOpen now); simpl in H.
  - destruct (validateInstruments (STOCK_INSTRUMENTS s)) eqn:Hv;
      inversion H; subst; simpl.
    + repeat split; intros; discriminate.
    + split; [reflexivity|]. split; [reflexivity|]. split; [reflexivity|].
      split; [|intros; discriminate].
      intros _ _. split; [reflexivity|].
      destruct (subscription_messages_shape (STOCK_INSTRUMENTS s))
        as (reqs & Hm & Hf & _).
      exists reqs. rewrite Hm. split; [reflexivity | exact Hf].
  - inversion H; subst; simpl. repeat split; intros; try discriminate;
      reflexivity.
Qed.

Lemma open_subscribes_witness :
  exists reqs,
    sent (fst (on_open (with_ws (Some OPEN) (loaded [reliance; tcs])) t_0915))
    = reqs ++ [ModeRequest 16 1]
    /\ flat_map payload_instruments reqs
       = [{| ExchangeSegment := Some "NSE_EQ"; SecurityId := Some "2885" |};
          {| ExchangeSegment := Some "NSE_EQ"; SecurityId := Some "11536" |}].
Proof.
  assert (H : step (loaded [reliance; tcs]) (WsOpen t_0915)
              = Some (on_open (with_ws (Some OPEN) (loaded [reliance; tcs])) t_0915))
    by reflexivity.
  destruct (on_open (with_ws (Some OPEN) (loaded [reliance; tcs])) t_0915)
    as [s' thrown] eqn:E.
  assert (H1 : isMarketOpen t_0915 = true) by reflexivity.
  assert (H2 : validateInstruments (STOCK_INSTRUMENTS (loaded [reliance; tcs]))
               = None) by reflexivity.
  destruct (proj1 (proj2 (proj2 (proj2
              (open_subscribes (loaded [reliance; tcs]) t_0915 s' thrown H))))
              H1 H2) as (_ & reqs & Hs & Hf).
  exists reqs. split; [exact Hs | exact Hf].
Defined.
